(** * Portfolio optimisation toolkit ([risk_toolkit.py]): model and properties

    The source works on numpy arrays of float64.  The model keeps the
    shapes, the exceptions and the IEEE special results ([nan], [inf]) that
    the code can produce, and writes the finite values as real numbers.
    Rounding, overflow and underflow are not part of these definitions, so
    the theorems stated on them are those that do not depend on them: facts
    about shapes, exceptions, control flow, values passed through unchanged,
    comparisons, and operations that are exact in binary64 (products by 0
    and 1, sums with 0); where overflow could matter a bound is a
    hypothesis.  Where rounding decides a property, module [F64] has the
    same code in binary64 arithmetic and the property is settled there.

    The nonlinear solver ([scipy.optimize.minimize], method SLSQP) is not
    part of the repository; it is a parameter of every function that calls
    it, and what is assumed about it is always written as a hypothesis. *)

From Stdlib Require Import Reals Lra Psatz String List Bool Arith ZArith Lia.
From Stdlib Require Floats.
Import ListNotations.

Open Scope string_scope.
Open Scope R_scope.

(** ** Exceptions and results *)

(** A Python exception: the name of its class and its message. *)
Record exn : Type := Exn { exn_class : string; exn_msg : string }.

Definition ValueError (msg : string) : exn := Exn "ValueError" msg.
Definition ZeroDivisionError (msg : string) : exn := Exn "ZeroDivisionError" msg.

(** The failure classes of the specification's taxonomy. *)
Definition ShapeError (msg : string) : exn := Exn "ShapeError" msg.
Definition NumericalError (msg : string) : exn := Exn "NumericalError" msg.
Definition OptimizationError (msg : string) : exn := Exn "OptimizationError" msg.

(** A call either returns a value or raises. *)
Inductive outcome (A : Type) : Type :=
| Returned (a : A)
| Raised (e : exn).

Arguments Returned {A} a.
Arguments Raised {A} e.

Definition bind {A B : Type} (m : outcome A) (k : A -> outcome B) : outcome B :=
  match m with
  | Returned a => k a
  | Raised e => Raised e
  end.

Notation "x <- m ;; k" := (bind m (fun x => k))
  (at level 61, m at next level, right associativity).

(** A list comprehension whose body may raise: elements are evaluated in
    order and the first exception ends the comprehension. *)
Fixpoint mapM {A B : Type} (f : A -> outcome B) (l : list A) : outcome (list B) :=
  match l with
  | [] => Returned []
  | a :: l' => b <- f a ;; bs <- mapM f l' ;; Returned (b :: bs)
  end.

(** ** Arrays and scalars *)

(** A one-dimensional array of finite floats, its entries written as real
    numbers (see the header on rounding). *)
Definition vector : Type := list R.

(** A two-dimensional array, as the list of its rows.  numpy arrays are
    rectangular. *)
Definition matrix : Type := list (list R).

Definition nrows (C : matrix) : nat := length C.

Definition ncols (C : matrix) : nat :=
  match C with
  | [] => 0%nat
  | row :: _ => length row
  end.

Definition rectangular (C : matrix) : Prop :=
  Forall (fun row => length row = ncols C) C.

(** The result of a float64 operation that may leave the finite values. *)
Inductive float64 : Type :=
| Fin (r : R)
| PInf
| NInf
| NaN.

Definition is_finite (v : float64) : Prop :=
  match v with
  | Fin _ => True
  | _ => False
  end.

(** [x ** 0.5] on a float64 scalar: the square root, and [nan] (with a
    RuntimeWarning, no exception) when [x] is negative. *)
Definition np_pow_half (x : R) : float64 :=
  if Rlt_dec x 0 then NaN else Fin (sqrt x).

(** [num / den] on float64 scalars, for a finite numerator: dividing by
    zero gives an infinity of the numerator's sign, or [nan] for 0/0 (with a
    RuntimeWarning, no exception). *)
Definition np_div (num : R) (den : float64) : float64 :=
  match den with
  | Fin d =>
      if Req_dec_T d 0 then
        if Rlt_dec 0 num then PInf
        else if Rlt_dec num 0 then NInf
        else NaN
      else Fin (num / d)
  | PInf | NInf => Fin 0
  | NaN => NaN
  end.

(** [np.sum], without its rounding ([F64.np_sum] has it). *)
Definition np_sum (v : vector) : R := fold_right Rplus 0 v.

(** The sum of the products of two vectors of one length, without its
    rounding ([F64.dot] has it). *)
Fixpoint dot_sum (u v : vector) : R :=
  match u, v with
  | a :: u', b :: v' => a * b + dot_sum u' v'
  | _, _ => 0
  end.

(** Column [j] of a matrix. *)
Definition column (j : nat) (C : matrix) : vector :=
  map (fun row => nth j row 0) C.

(** The entries of [w @ C] for [c] columns: entry [j] is the sum over [i]
    of [w[i] * C[i][j]]. *)
Definition vec_mat (c : nat) (w : vector) (C : matrix) : vector :=
  map (fun j => dot_sum w (column j C)) (seq 0 c).

Definition matmul_mismatch : string :=
  "matmul: Input operand 1 has a mismatch in its core dimension 0".

(** [u @ v] for two one-dimensional arrays. *)
Definition matmul_1d_1d (u v : vector) : outcome R :=
  if (length u =? length v)%nat then Returned (dot_sum u v)
  else Raised (ValueError matmul_mismatch).

(** [w @ C] for a one-dimensional [w] and a two-dimensional [C]. *)
Definition matmul_1d_2d (w : vector) (C : matrix) : outcome vector :=
  if (length w =? nrows C)%nat then Returned (vec_mat (ncols C) w C)
  else Raised (ValueError matmul_mismatch).

(** ** Portfolio metrics *)

(** [weights.T @ returns]; the transpose of a one-dimensional array is the
    array itself. *)
Definition portfolio_return (weights returns : vector) : outcome R :=
  matmul_1d_1d weights returns.

(** [(weights.T @ covmat @ weights)**0.5]; [@] associates to the left. *)
Definition portfolio_vol (weights : vector) (covmat : matrix) : outcome float64 :=
  wc <- matmul_1d_2d weights covmat ;;
  q <- matmul_1d_1d wc weights ;;
  Returned (np_pow_half q).

(** ** numpy helpers used by the frontier code *)

(** [np.repeat(a / n, n)] for Python integers [a] and [n]: the quotient is
    computed first, and Python's integer division raises on [n = 0]. *)
Definition py_int_div (a n : nat) : outcome R :=
  if (n =? 0)%nat then Raised (ZeroDivisionError "division by zero")
  else Returned (INR a / INR n).

(** [er.min()] and [er.max()]: numpy raises on an empty array. *)
Definition np_min (v : vector) : outcome R :=
  match v with
  | [] => Raised (ValueError "zero-size array to reduction operation minimum which has no identity")
  | a :: t => Returned (fold_left Rmin t a)
  end.

Definition np_max (v : vector) : outcome R :=
  match v with
  | [] => Raised (ValueError "zero-size array to reduction operation maximum which has no identity")
  | a :: t => Returned (fold_left Rmax t a)
  end.

(** Overwrites the last entry of an array ([y[-1] = stop]). *)
Fixpoint set_last (y : vector) (stop : R) : vector :=
  match y with
  | [] => []
  | [_] => [stop]
  | a :: y' => a :: set_last y' stop
  end.

(** [np.linspace(start, stop, num)] with the default [endpoint=True]:
    [arange(num) * step + start] with [step = (stop - start) / (num - 1)],
    the last entry then overwritten by [stop]; with a single sample the
    step is not used. *)
Definition linspace (start stop : R) (num : nat) : vector :=
  let div := (num - 1)%nat in
  let delta := stop - start in
  let y := map INR (seq 0 num) in
  let y := if (0 <? div)%nat then map (fun i => i * (delta / INR div)) y
           else map (fun i => i * delta) y in
  let y := map (fun v => v + start) y in
  if (1 <? num)%nat then set_last y stop else y.

(** The columns of the DataFrame that the plotting functions draw. *)
Record frame : Type := Frame { Returns : list R; Volatility : list float64 }.

(** [plot_ef2]: the guard on [er], then the two-asset frontier.  Drawing is
    outside the model; the result is the frame handed to the plot. *)
Definition plot_ef2 (er : vector) (cov : matrix) (n_points : nat) : outcome frame :=
  if negb (length er =? 2)%nat || negb (length er =? 2)%nat then
    Raised (ValueError "plot_ef2 can only plot 2-asset frontiers")
  else
    let weights := map (fun w => [w; 1 - w]) (linspace 0 1 n_points) in
    rets <- mapM (fun w => portfolio_return w er) weights ;;
    vols <- mapM (fun w => portfolio_vol w cov) weights ;;
    Returned (Frame rets vols).

(** The exception of the guard of [plot_ef2]. *)
Definition plot_ef2_error : exn :=
  ValueError "plot_ef2 can only plot 2-asset frontiers".

(** ** The solver interface *)

(** What [scipy.optimize.minimize] returns; the code reads only [x]. *)
Module OptimizeResult.
Record t : Type := Make {
  x : vector;
  success : bool;
  status : nat;
  message : string
}.
End OptimizeResult.

Inductive constraint_type : Type := eq_constraint | ineq_constraint.

(** A constraint dictionary: ['type'] and ['fun'] (with its ['args']
    applied). *)
Record constraint : Type := Constraint {
  ctype : constraint_type;
  cfun : vector -> outcome R
}.

(** [minimize(fun, x0, args, method='SLSQP', constraints, bounds)]. *)
Definition solver : Type :=
  (vector -> outcome float64) -> vector -> list constraint -> list (R * R) ->
  outcome OptimizeResult.t.

(** [-(r - riskfree_rate)/vol], the objective of [msr] (a nested function
    in the source). *)
Definition neg_sharpe_ratio (weights : vector) (riskfree_rate : R)
    (er : vector) (cov : matrix) : outcome float64 :=
  r <- portfolio_return weights er ;;
  vol <- portfolio_vol weights cov ;;
  Returned (np_div (- (r - riskfree_rate)) vol).

Section Optimisation.

Variable minimize : solver.

(** The constraints that [minimize_vol] builds. *)
Definition return_is_target (target_return : R) (er : vector) : constraint :=
  Constraint eq_constraint
    (fun weights => r <- portfolio_return weights er ;; Returned (target_return - r)).

Definition weights_sum_to_1 : constraint :=
  Constraint eq_constraint (fun weights => Returned (np_sum weights - 1)).

(** The call of the solver in [minimize_vol], up to [results]. *)
Definition minimize_vol_results (target_return : R) (er : vector) (cov : matrix)
    : outcome OptimizeResult.t :=
  let n := length er in
  g <- py_int_div 1 n ;;
  let init_guess := repeat g n in
  let bounds := repeat (0, 1) n in
  minimize (fun weights => portfolio_vol weights cov) init_guess
    [return_is_target target_return er; weights_sum_to_1] bounds.

(** [minimize_vol]: [return results.x]. *)
Definition minimize_vol (target_return : R) (er : vector) (cov : matrix)
    : outcome vector :=
  results <- minimize_vol_results target_return er cov ;;
  Returned (OptimizeResult.x results).

(** The targets of the frontier sweep: [np.linspace(er.min(), er.max(), n_points)]. *)
Definition target_rs (er : vector) (n_points : nat) : outcome vector :=
  lo <- np_min er ;;
  hi <- np_max er ;;
  Returned (linspace lo hi n_points).

Definition optimal_weights (er : vector) (cov : matrix) (n_points : nat)
    : outcome (list vector) :=
  ts <- target_rs er n_points ;;
  mapM (fun target_return => minimize_vol target_return er cov) ts.

(** The call of the solver in [msr], up to [results]. *)
Definition msr_results (riskfree_rate : R) (er : vector) (cov : matrix)
    : outcome OptimizeResult.t :=
  let n := length er in
  g <- py_int_div 1 n ;;
  let init_guess := repeat g n in
  let bounds := repeat (0, 1) n in
  minimize (fun weights => neg_sharpe_ratio weights riskfree_rate er cov) init_guess
    [weights_sum_to_1] bounds.

(** [msr]: [return results.x]. *)
Definition msr (riskfree_rate : R) (er : vector) (cov : matrix) : outcome vector :=
  results <- msr_results riskfree_rate er cov ;;
  Returned (OptimizeResult.x results).

(** [gmv]: [msr(0, np.repeat(1, n), cov)] with [n = cov.shape[0]]. *)
Definition gmv (cov : matrix) : outcome vector :=
  let n := nrows cov in
  msr 0 (repeat 1 n) cov.




End Optimisation.

(** ** Vocabulary of the statements *)

(** The radicand of [portfolio_vol]: [weights.T @ covmat @ weights]. *)
Definition radicand (weights : vector) (covmat : matrix) : outcome R :=
  wc <- matmul_1d_2d weights covmat ;;
  matmul_1d_1d wc weights.

(** The quadratic form as the specification writes it, [w^T . C . w]: the
    sum over [i] of [w[i]] times the sum over [j] of [C[i][j] * w[j]]. *)
Definition quad_form (w : vector) (C : matrix) : R :=
  dot_sum w (map (fun row => dot_sum row w) C).

Definition entry (C : matrix) (i j : nat) : R := nth j (nth i C []) 0.





(** Scaling a weight vector by a scalar ([a * w]). *)
Definition scale (a : R) (w : vector) : vector := map (Rmult a) w.

Definition approx (tol a b : R) : Prop := Rabs (a - b) <= tol.

Definition within_bounds (bounds : list (R * R)) (w : vector) : Prop :=
  Forall2 (fun b wi => fst b <= wi <= snd b) bounds w.

(** What the specification asks of the output of the Minimum-Volatility
    Solver, for a tolerance [tol]. *)
Definition meets_min_vol_constraints (tol target_return : R) (er w : vector) : Prop :=
  approx tol (np_sum w) 1 /\
  (exists r, portfolio_return w er = Returned r /\ approx tol r target_return) /\
  Forall (fun wi => 0 <= wi <= 1) w.


Definition nondecreasing (l : vector) : Prop :=
  forall i j, (i <= j < length l)%nat -> nth i l 0 <= nth j l 0.

(** *** What is assumed of a solver, where a statement needs it *)

(** The solver evaluates the constraints and then the objective at the
    initial guess before it iterates, and an exception raised by the
    objective there reaches the caller. *)
Definition reports_objective_error (m : solver) : Prop :=
  forall f x0 cons bounds e,
    (forall c, In c cons -> exists v, cfun c x0 = Returned v) ->
    f x0 = Raised e ->
    m f x0 cons bounds = Raised e.

(** A ZeroDivisionError that leaves the solver was raised by the objective
    or by a constraint function. *)
Definition division_errors_come_from_callbacks (m : solver) : Prop :=
  forall f x0 cons bounds e,
    m f x0 cons bounds = Raised e ->
    exn_class e = "ZeroDivisionError" ->
    (exists w, f w = Raised e) \/
    (exists c w, In c cons /\ cfun c w = Raised e).

(** A result flagged successful is within the bounds and satisfies every
    equality constraint within [tol]. *)
Definition success_means_feasible (tol : R) (m : solver) : Prop :=
  forall f x0 cons bounds res,
    m f x0 cons bounds = Returned res ->
    OptimizeResult.success res = true ->
    within_bounds bounds (OptimizeResult.x res) /\
    forall c, In c cons -> ctype c = eq_constraint ->
      exists v, cfun c (OptimizeResult.x res) = Returned v /\ Rabs v <= tol.

(** *** A reference instance of the solver interface *)

Definition Rleb (a b : R) : bool := if Rle_dec a b then true else false.

Definition in_bounds_b (bounds : list (R * R)) (w : vector) : bool :=
  (length bounds =? length w)%nat &&
  forallb (fun p => Rleb (fst (fst p)) (snd p) && Rleb (snd p) (snd (fst p)))
          (combine bounds w).

Definition constraint_met_b (tol : R) (w : vector) (c : constraint) : bool :=
  match ctype c, cfun c w with
  | eq_constraint, Returned v => Rleb (Rabs v) tol
  | ineq_constraint, Returned v => Rleb 0 v
  | _, Raised _ => false
  end.

(** A run of the interface that stops at the initial guess: it evaluates
    the constraints and the objective there (exceptions reach the caller),
    and reports success exactly when the guess is feasible within [tol];
    otherwise it reports that the iteration limit was reached.  It stands
    in for the external solver where a concrete run is needed. *)
Definition first_iterate_solver (tol : R) : solver :=
  fun f x0 cons bounds =>
    _ <- mapM (fun c => cfun c x0) cons ;;
    _ <- f x0 ;;
    if in_bounds_b bounds x0 && forallb (constraint_met_b tol x0) cons then
      Returned (OptimizeResult.Make x0 true 0 "Optimization terminated successfully")
    else
      Returned (OptimizeResult.Make x0 false 9 "Iteration limit reached").

(** ** Series statistics and drawdown *)

Definition Rltb (a b : R) : bool := if Rlt_dec a b then true else false.

(** The running results of a binary operation, after a first value. *)
Fixpoint scan (f : R -> R -> R) (acc : R) (l : vector) : vector :=
  match l with
  | [] => []
  | a :: t => f acc a :: scan f (f acc a) t
  end.

(** [Series.cumprod()] and [Series.cummax()]; the running product is
    written without rounding, overflow or underflow. *)
Definition cumprod (l : vector) : vector :=
  match l with
  | [] => []
  | a :: t => a :: scan Rmult a t
  end.

Definition cummax (l : vector) : vector :=
  match l with
  | [] => []
  | a :: t => a :: scan Rmax a t
  end.

(** The DataFrame that [drawdown] returns. *)
Record drawdown_frame : Type := DrawdownFrame {
  Wealth : vector;
  Peaks : vector;
  Drawdown : list float64
}.

(** [drawdown]: the wealth index of 1000, its running peaks and the
    relative loss from the peak (an elementwise float64 division). *)
Definition drawdown (return_series : vector) : drawdown_frame :=
  let wealth_index := map (Rmult 1000) (cumprod (map (Rplus 1) return_series)) in
  let previous_peaks := cummax wealth_index in
  let drawdowns :=
    map (fun p => np_div (fst p - snd p) (Fin (snd p)))
        (combine wealth_index previous_peaks) in
  DrawdownFrame wealth_index previous_peaks drawdowns.

(** [Series.mean()]: [nan] on an empty Series; the quotient is written
    without rounding. *)
Definition series_mean (v : vector) : float64 :=
  match v with
  | [] => NaN
  | _ => Fin (np_sum v / INR (length v))
  end.

(** [Series.std(ddof=0)], the population standard deviation: [nan] on an
    empty Series. *)
Definition series_std0 (v : vector) : float64 :=
  match v with
  | [] => NaN
  | _ =>
      let m := np_sum v / INR (length v) in
      Fin (sqrt (np_sum (map (fun a => (a - m) * (a - m)) v) / INR (length v)))
  end.

(** [semideviation] of a Series: [r[r < 0].std(ddof=0)]. *)
Definition semideviation (r : vector) : float64 :=
  let is_negative := fun a => Rltb a 0 in
  series_std0 (filter is_negative r).

(** [skewness] of a Series. *)
Definition skewness (r : vector) : float64 :=
  match series_mean r, series_std0 r with
  | Fin m, Fin sigma_r =>
      let demeaned_r := map (fun a => a - m) r in
      let exp := np_sum (map (fun d => d ^ 3) demeaned_r) / INR (length r) in
      np_div exp (Fin (sigma_r ^ 3))
  | _, _ => NaN
  end.

(** [kurtosis] of a Series. *)
Definition kurtosis (r : vector) : float64 :=
  match series_mean r, series_std0 r with
  | Fin m, Fin sigma_r =>
      let demeaned_r := map (fun a => a - m) r in
      let exp := np_sum (map (fun d => d ^ 4) demeaned_r) / INR (length r) in
      np_div exp (Fin (sigma_r ^ 4))
  | _, _ => NaN
  end.

(** Unary minus on a float64 result. *)
Definition fneg (v : float64) : float64 :=
  match v with
  | Fin r => Fin (- r)
  | PInf => NInf
  | NInf => PInf
  | NaN => NaN
  end.

(** ** Historic value at risk *)

Definition TypeError (msg : string) : exn := Exn "TypeError" msg.

(** What the historic functions are called on: a Series, a DataFrame (its
    named columns) or anything else. *)
Inductive returns_data : Type :=
| Series (r : vector)
| DataFrame (columns : list (string * vector))
| OtherData.

(** Their result: a scalar for a Series, and for a DataFrame the Series of
    the columns' results that [aggregate] builds. *)
Inductive statistic : Type :=
| Scalar (v : float64)
| PerColumn (values : list (string * float64)).

(** [x <= t] for a float64 [t]: a comparison with [nan] is false. *)
Definition le_float (x : R) (t : float64) : bool :=
  match t with
  | Fin y => Rleb x y
  | PInf => true
  | NInf => false
  | NaN => false
  end.

Section Historic.

(** [np.percentile], which is not part of the repository. *)
Variable np_percentile : vector -> R -> outcome float64.

(** The Series branch of [var_historic]: [-np.percentile(r, level)]. *)
Definition var_historic_series (r : vector) (level : R) : outcome float64 :=
  p <- np_percentile r level ;;
  Returned (fneg p).

(** [r.aggregate(f, level=level)]: [f] on each column, in order. *)
Definition aggregate (f : vector -> R -> outcome float64)
    (columns : list (string * vector)) (level : R) : outcome statistic :=
  values <- mapM (fun c => v <- f (snd c) level ;; Returned (fst c, v)) columns ;;
  Returned (PerColumn values).

Definition var_historic (r : returns_data) (level : R) : outcome statistic :=
  match r with
  | DataFrame columns => aggregate var_historic_series columns level
  | Series s => v <- var_historic_series s level ;; Returned (Scalar v)
  | OtherData => Raised (TypeError "Expected r to be Series or DataFrame")
  end.

(** The Series branch of [cvar_historic]:
    [is_beyond = r <= -var_historic(r, level)], then
    [-r[is_beyond].mean()]. *)
Definition cvar_historic_series (r : vector) (level : R) : outcome float64 :=
  v <- var_historic_series r level ;;
  let is_beyond := fun a => le_float a (fneg v) in
  Returned (fneg (series_mean (filter is_beyond r))).

Definition cvar_historic (r : returns_data) (level : R) : outcome statistic :=
  match r with
  | DataFrame columns => aggregate cvar_historic_series columns level
  | Series s => v <- cvar_historic_series s level ;; Returned (Scalar v)
  | OtherData => Raised (TypeError "Expected r to be Series or DataFrame")
  end.

End Historic.

(** The weights that put everything on asset [i] of [n]. *)
Definition one_hot (n i : nat) : vector :=
  map (fun j => if (j =? i)%nat then 1 else 0) (seq 0 n).

(** ** The metrics in binary64 arithmetic

    The same code with every operation rounded as IEEE binary64 does
    (round to nearest even), products summed in index order.  It is used
    where a rounded result differs from the exact one. *)
Module F64.
Import PrimFloat.

Definition dot (u v : list float) : float :=
  fold_left (fun acc p => add acc (mul (fst p) (snd p))) (combine u v) zero.

Definition np_sum (v : list float) : float := fold_left add v zero.

Definition ncols (C : list (list float)) : nat :=
  match C with
  | [] => 0%nat
  | row :: _ => length row
  end.

Definition column (j : nat) (C : list (list float)) : list float :=
  map (fun row => nth j row zero) C.

Definition matmul_1d_1d (u v : list float) : outcome float :=
  if Nat.eqb (length u) (length v) then Returned (dot u v)
  else Raised (ValueError matmul_mismatch).

Definition matmul_1d_2d (w : list float) (C : list (list float))
    : outcome (list float) :=
  if Nat.eqb (length w) (length C)
  then Returned (map (fun j => dot w (column j C)) (seq 0 (ncols C)))
  else Raised (ValueError matmul_mismatch).

(** [x ** 0.5]: [nan] below zero, the rounded square root otherwise (and
    [+0] at either zero). *)
Definition pow_half (x : float) : float :=
  if ltb x zero then nan
  else if eqb x zero then zero
  else sqrt x.

Definition radicand (weights : list float) (covmat : list (list float))
    : outcome float :=
  wc <- matmul_1d_2d weights covmat ;;
  matmul_1d_1d wc weights.

Definition portfolio_vol (weights : list float) (covmat : list (list float))
    : outcome float :=
  wc <- matmul_1d_2d weights covmat ;;
  q <- matmul_1d_1d wc weights ;;
  Returned (pow_half q).

Definition scale (a : float) (w : list float) : list float := map (mul a) w.


End F64.

(** The largest finite binary64 number. *)
Definition float64_max : R := (2 - / 2 ^ 52) * 2 ^ 1023.

(** Evaluates the products of the metrics at concrete arrays. *)
Ltac metric_at :=
  unfold radicand, portfolio_return, matmul_1d_2d, matmul_1d_1d, vec_mat,
    column, np_sum; simpl.

Ltac radicand_at := metric_at; f_equal; lra.

(** ** Linear algebra of the metrics *)

Lemma bind_returned {A B : Type} (m : outcome A) (k : A -> outcome B) (b : B) :
  bind m k = Returned b -> exists a, m = Returned a /\ k a = Returned b.
Proof.
  destruct m as [a | e]; simpl; intros H; [eauto | discriminate].
Qed.

Lemma bind_raised {A B : Type} (m : outcome A) (k : A -> outcome B) (e : exn) :
  bind m k = Raised e ->
  m = Raised e \/ exists a, m = Returned a /\ k a = Raised e.
Proof.
  destruct m as [a | e']; simpl; intros H; [right; eauto | left; congruence].
Qed.

Lemma dot_sum_nil_r (u : vector) : dot_sum u [] = 0.
Proof. destruct u; reflexivity. Qed.

Lemma dot_sum_map_lin (a : R) (f g : nat -> R) (l : list nat) (v : vector) :
  dot_sum (map (fun j => a * f j + g j) l) v =
  a * dot_sum (map f l) v + dot_sum (map g l) v.
Proof.
  revert v; induction l as [| j l IH]; intros v; simpl.
  - ring.
  - destruct v as [| b v]; [ring |]. rewrite IH. ring.
Qed.

Lemma dot_sum_map_zero (l : list nat) (v : vector) :
  dot_sum (map (fun _ => 0) l) v = 0.
Proof.
  revert v; induction l as [| j l IH]; intros [| b v]; simpl; trivial.
  rewrite IH. ring.
Qed.

Lemma map_nth_seq_id (row : vector) :
  map (fun j => nth j row 0) (seq 0 (length row)) = row.
Proof.
  induction row as [| a row IH]; simpl; trivial.
  rewrite <- seq_shift, map_map. simpl. now rewrite IH.
Qed.

(** [(u @ C) @ v = u @ (C @ v)]: the left-associated product of the code is
    the double sum of the quadratic form. *)
Lemma vec_mat_assoc (c : nat) (C : matrix) :
  Forall (fun row => length row = c) C ->
  forall u v,
    dot_sum (vec_mat c u C) v = dot_sum u (map (fun row => dot_sum row v) C).
Proof.
  unfold vec_mat. induction 1 as [| row C' Hrow _ IH]; intros u v.
  - simpl. rewrite dot_sum_nil_r. apply dot_sum_map_zero.
  - destruct u as [| a u'].
    + simpl. apply dot_sum_map_zero.
    + simpl. rewrite (dot_sum_map_lin a (fun j => nth j row 0)
                        (fun j => dot_sum u' (column j C'))).
      rewrite <- Hrow, map_nth_seq_id. unfold column in IH. rewrite Hrow, IH.
      reflexivity.
Qed.

Lemma length_vec_mat (c : nat) (w : vector) (C : matrix) :
  length (vec_mat c w C) = c.
Proof. unfold vec_mat. now rewrite length_map, length_seq. Qed.

(** When the product is defined, the radicand is the quadratic form. *)
Lemma radicand_defined (w : vector) (C : matrix) :
  rectangular C -> length w = nrows C -> ncols C = length w ->
  radicand w C = Returned (quad_form w C).
Proof.
  intros Hrect Hr Hc. unfold radicand, matmul_1d_2d, matmul_1d_1d.
  rewrite Hr, Nat.eqb_refl. simpl.
  rewrite length_vec_mat, Hc, Hr, Nat.eqb_refl.
  unfold quad_form. f_equal. rewrite <- Hr, <- Hc. now apply vec_mat_assoc.
Qed.

(** Otherwise matmul raises its ValueError. *)
Lemma radicand_mismatch (w : vector) (C : matrix) :
  length w <> nrows C \/ ncols C <> length w ->
  radicand w C = Raised (ValueError matmul_mismatch).
Proof.
  intros H. unfold radicand, matmul_1d_2d, matmul_1d_1d.
  destruct (Nat.eqb_spec (length w) (nrows C)) as [Hr | Hr]; simpl; trivial.
  rewrite length_vec_mat.
  destruct (Nat.eqb_spec (ncols C) (length w)) as [Hc | Hc]; trivial.
  destruct H; contradiction.
Qed.

Lemma portfolio_vol_radicand (w : vector) (C : matrix) :
  portfolio_vol w C = (q <- radicand w C ;; Returned (np_pow_half q)).
Proof.
  unfold portfolio_vol, radicand. destruct (matmul_1d_2d w C); reflexivity.
Qed.

Lemma portfolio_vol_of_radicand (w : vector) (C : matrix) (q : R) :
  radicand w C = Returned q -> portfolio_vol w C = Returned (np_pow_half q).
Proof. intros H. now rewrite portfolio_vol_radicand, H. Qed.

Lemma np_pow_half_nonneg (q : R) : 0 <= q -> np_pow_half q = Fin (sqrt q).
Proof. intros H. unfold np_pow_half. destruct (Rlt_dec q 0); [lra | reflexivity]. Qed.







(** ** Claims on [portfolio_vol] *)








(** ** [linspace], [min] and [max] *)

Lemma nth_map_in {A B : Type} (f : A -> B) (l : list A) (i : nat) (d : B) (d' : A) :
  (i < length l)%nat -> nth i (map f l) d = f (nth i l d').
Proof.
  revert i; induction l as [| a l IH]; intros [| i] H; simpl in *; try lia; trivial.
  apply IH. lia.
Qed.

Lemma length_set_last (y : vector) (s : R) : length (set_last y s) = length y.
Proof.
  induction y as [| a y IH]; trivial.
  destruct y as [| b y]; trivial.
  change (S (length (set_last (b :: y) s)) = S (length (b :: y))). now rewrite IH.
Qed.

Lemma nth_set_last (y : vector) (s : R) :
  forall i, (i < length y)%nat ->
    nth i (set_last y s) 0 = if (S i =? length y)%nat then s else nth i y 0.
Proof.
  induction y as [| a y IH]; intros i Hi; [simpl in Hi; lia |].
  destruct y as [| b y].
  - simpl in Hi. assert (i = 0%nat) by lia. subst i. reflexivity.
  - destruct i as [| i].
    + reflexivity.
    + change (nth i (set_last (b :: y) s) 0 =
              if (S i =? length (b :: y))%nat then s else nth i (b :: y) 0).
      apply IH. simpl in *. lia.
Qed.

Lemma length_linspace (a b : R) (n : nat) : length (linspace a b n) = n.
Proof.
  unfold linspace.
  assert (H : forall y : vector, length y = n ->
            length (map (fun v => v + a) y) = n) by (intros; now rewrite length_map).
  destruct (1 <? n)%nat; [rewrite length_set_last |];
    destruct (0 <? n - 1)%nat; apply H; now rewrite !length_map, length_seq.
Qed.

Lemma linspace_single (a b : R) : linspace a b 1 = [a].
Proof. unfold linspace; simpl. f_equal. ring. Qed.

(** Entry [i] of a linspace of at least two samples. *)
Lemma linspace_nth (a b : R) (n i : nat) :
  (2 <= n)%nat -> (i < n)%nat ->
  nth i (linspace a b n) 0 = a + INR i * ((b - a) / INR (n - 1)).
Proof.
  intros Hn Hi. unfold linspace.
  destruct (Nat.ltb_spec 1 n) as [_ | ?]; [| lia].
  destruct (Nat.ltb_spec 0 (n - 1)) as [_ | ?]; [| lia].
  assert (Hnz : INR (n - 1) <> 0) by (apply not_0_INR; lia).
  rewrite nth_set_last by now rewrite !length_map, length_seq.
  rewrite !length_map, length_seq.
  destruct (Nat.eqb_spec (S i) n) as [E | E].
  - replace i with (n - 1)%nat by lia. field. exact Hnz.
  - rewrite (nth_map_in _ _ _ _ 0) by now rewrite !length_map, length_seq.
    rewrite (nth_map_in _ _ _ _ 0) by now rewrite length_map, length_seq.
    rewrite (nth_map_in _ _ _ _ 0%nat) by now rewrite length_seq.
    rewrite seq_nth by assumption. simpl. ring.
Qed.

Lemma linspace_first (a b : R) (n : nat) :
  (1 <= n)%nat -> nth 0 (linspace a b n) 0 = a.
Proof.
  intros Hn. destruct (Nat.eq_dec n 1) as [-> | Hn1].
  - now rewrite linspace_single.
  - rewrite linspace_nth by lia. simpl. ring.
Qed.

Lemma linspace_last (a b : R) (n : nat) :
  (2 <= n)%nat -> nth (n - 1) (linspace a b n) 0 = b.
Proof.
  intros Hn. rewrite linspace_nth by lia. field. apply not_0_INR. lia.
Qed.


Lemma fold_left_Rmin_spec (t : vector) (a : R) :
  In (fold_left Rmin t a) (a :: t) /\
  Forall (fun x => fold_left Rmin t a <= x) (a :: t).
Proof.
  revert a; induction t as [| b t IH]; intros a; simpl.
  - split; [now left | repeat constructor; lra].
  - destruct (IH (Rmin a b)) as [Hin Hall]. inversion Hall as [| ? ? H1 H2]; subst.
    split.
    + destruct Hin as [E | Hin]; [| now right; right].
      rewrite <- E. unfold Rmin. destruct (Rle_dec a b); [now left | right; now left].
    + pose proof (Rmin_l a b). pose proof (Rmin_r a b).
      constructor; [lra |]. constructor; [lra | exact H2].
Qed.

Lemma fold_left_Rmax_spec (t : vector) (a : R) :
  In (fold_left Rmax t a) (a :: t) /\
  Forall (fun x => x <= fold_left Rmax t a) (a :: t).
Proof.
  revert a; induction t as [| b t IH]; intros a; simpl.
  - split; [now left | repeat constructor; lra].
  - destruct (IH (Rmax a b)) as [Hin Hall]. inversion Hall as [| ? ? H1 H2]; subst.
    split.
    + destruct Hin as [E | Hin]; [| now right; right].
      rewrite <- E. unfold Rmax. destruct (Rle_dec a b); [right; now left | now left].
    + pose proof (Rmax_l a b). pose proof (Rmax_r a b).
      constructor; [lra |]. constructor; [lra | exact H2].
Qed.

(** ** Comprehensions and the exceptions of the metrics *)

Lemma mapM_raised {A B : Type} (f : A -> outcome B) (l : list A) (e : exn) :
  mapM f l = Raised e -> exists a, In a l /\ f a = Raised e.
Proof.
  induction l as [| a l IH]; simpl; [discriminate |].
  destruct (f a) as [b | e'] eqn:Fa; simpl.
  - destruct (mapM f l) as [bs | e'']; simpl; [discriminate |].
    intros H. destruct IH as (a' & Hin & Ha'); [exact H |]. eauto.
  - intros H. exists a. split; [now left | congruence].
Qed.

(** A comprehension returns exactly when every element's call returns, and
    then it holds one result per element, in order. *)
Lemma mapM_returned {A B : Type} (f : A -> outcome B) (l : list A) (bs : list B) :
  mapM f l = Returned bs <-> Forall2 (fun a b => f a = Returned b) l bs.
Proof.
  revert bs; induction l as [| a l IH]; intros bs; simpl.
  - split.
    + intros H; injection H as <-. constructor.
    + intros H; inversion H. reflexivity.
  - split.
    + destruct (f a) as [b | e] eqn:Fa; simpl; [| discriminate].
      destruct (mapM f l) as [bs' | e]; simpl; [| discriminate].
      intros H; injection H as <-. constructor; [exact Fa | now apply IH].
    + intros H; inversion H as [| ? b ? bs' Fa Hrest]; subst.
      rewrite Fa. simpl. apply IH in Hrest. rewrite Hrest. reflexivity.
Qed.

Lemma mapM_total {A B : Type} (f : A -> outcome B) (l : list A) :
  (forall a, In a l -> exists b, f a = Returned b) ->
  exists bs, mapM f l = Returned bs.
Proof.
  induction l as [| a l IH]; intros H; simpl; [eauto |].
  destruct (H a) as (b & ->); [now left |].
  destruct IH as (bs & ->); [intros; apply H; now right |].
  simpl. eauto.
Qed.

Lemma matmul_1d_1d_raised (u v : vector) (e : exn) :
  matmul_1d_1d u v = Raised e -> e = ValueError matmul_mismatch.
Proof.
  unfold matmul_1d_1d. destruct (length u =? length v)%nat; congruence.
Qed.

Lemma portfolio_return_raised (w er : vector) (e : exn) :
  portfolio_return w er = Raised e -> e = ValueError matmul_mismatch.
Proof. apply matmul_1d_1d_raised. Qed.

Lemma portfolio_vol_raised (w : vector) (C : matrix) (e : exn) :
  portfolio_vol w C = Raised e -> e = ValueError matmul_mismatch.
Proof.
  unfold portfolio_vol, matmul_1d_2d.
  destruct (length w =? nrows C)%nat; simpl; [| congruence].
  destruct (matmul_1d_1d _ w) eqn:E; simpl; [discriminate |].
  intros H; injection H as <-. now apply matmul_1d_1d_raised in E.
Qed.

(** [portfolio_vol] returns exactly when the covariance is square of the
    size of the weights. *)
Lemma portfolio_vol_mismatch (w : vector) (C : matrix) :
  length w <> nrows C \/ ncols C <> length w ->
  portfolio_vol w C = Raised (ValueError matmul_mismatch).
Proof.
  intros H. now rewrite portfolio_vol_radicand, radicand_mismatch.
Qed.

Lemma portfolio_vol_match (w : vector) (C : matrix) :
  length w = nrows C -> ncols C = length w ->
  exists v, portfolio_vol w C = Returned v.
Proof.
  intros Hr Hc. unfold portfolio_vol, matmul_1d_2d, matmul_1d_1d.
  rewrite Hr, Nat.eqb_refl. simpl. rewrite length_vec_mat, Hc, Hr, Nat.eqb_refl.
  simpl. eauto.
Qed.

(** ** The guard of [plot_ef2] *)

(** C10 (as the code has it).  [plot_ef2] raises the ValueError of its
    validity check exactly when [er] does not have length 2; the check looks at [er] only, so its
    verdict is the same for every covariance matrix, of any shape. *)
Theorem plot_ef2_guard_only_er (er : vector) (cov : matrix) (n_points : nat) :
  (plot_ef2 er cov n_points = Raised plot_ef2_error <-> length er <> 2%nat) /\
  (forall cov' : matrix,
      plot_ef2 er cov' n_points = Raised plot_ef2_error <->
      plot_ef2 er cov n_points = Raised plot_ef2_error).
Proof.
  assert (G : forall c, plot_ef2 er c n_points = Raised plot_ef2_error <->
                        length er <> 2%nat).
  { intros c. unfold plot_ef2.
    destruct (Nat.eqb_spec (length er) 2) as [E | E]; simpl.
    - split; [| contradiction]. intros H.
      apply bind_raised in H as [H | (rets & _ & H)].
      + apply mapM_raised in H as (w & _ & H).
        apply portfolio_return_raised in H. discriminate H.
      + apply bind_raised in H as [H | (vols & _ & H)]; [| discriminate H].
        apply mapM_raised in H as (w & _ & H).
        apply portfolio_vol_raised in H. discriminate H.
    - split; [intros _; exact E | reflexivity]. }
  split; [apply G |]. intros cov'. now rewrite !G.
Qed.

(** With a two-asset [er], a covariance that is not 2 x 2 passes the check
    and is refused only by the matrix product of the first frontier
    point. *)
Lemma plot_ef2_mismatched_cov (er : vector) (cov : matrix) (n_points : nat) :
  length er = 2%nat -> nrows cov <> 2%nat \/ ncols cov <> 2%nat ->
  (0 < n_points)%nat ->
  plot_ef2 er cov n_points = Raised (ValueError matmul_mismatch).
Proof.
  intros Her Hcov Hn. unfold plot_ef2. rewrite Her. simpl.
  destruct (mapM_total (fun w => portfolio_return w er)
              (map (fun w => [w; 1 - w]) (linspace 0 1 n_points))) as (rets & ->).
  { intros w Hw. apply in_map_iff in Hw as (t & <- & _).
    unfold portfolio_return, matmul_1d_1d. rewrite Her. simpl. eauto. }
  simpl.
  pose proof (length_linspace 0 1 n_points) as Hl.
  destruct (linspace 0 1 n_points) as [| t ts]; [simpl in Hl; lia |].
  simpl. rewrite portfolio_vol_mismatch; [reflexivity |].
  simpl. destruct Hcov; [left | right]; congruence.
Qed.

(** C10 fails as stated: with an [er] of length 2 and a 2 x 3 covariance,
    [plot_ef2] raises a ValueError all the same, that of the matrix
    product, not that of its check. *)
Lemma plot_ef2_other_ValueError :
  length [1 / 20; 1 / 10] = 2%nat /\
  plot_ef2 [1 / 20; 1 / 10] [[4; 1; 0]; [1; 9; 0]] 25 =
    Raised (ValueError matmul_mismatch) /\
  exn_class (ValueError matmul_mismatch) = "ValueError" /\
  ValueError matmul_mismatch <> plot_ef2_error.
Proof.
  split; [reflexivity |]. split; [| split; [reflexivity | discriminate]].
  apply plot_ef2_mismatched_cov; [reflexivity | right; simpl; lia | lia].
Qed.

(** ** The frontier sweep *)

Lemma np_min_max_spec (er : vector) :
  er <> [] ->
  exists lo hi,
    np_min er = Returned lo /\ np_max er = Returned hi /\
    In lo er /\ In hi er /\ Forall (fun r => lo <= r <= hi) er.
Proof.
  destruct er as [| a t]; [congruence | intros _].
  destruct (fold_left_Rmin_spec t a) as [Hmin Hle].
  destruct (fold_left_Rmax_spec t a) as [Hmax Hge].
  exists (fold_left Rmin t a), (fold_left Rmax t a).
  repeat split; trivial.
  rewrite Forall_forall in *. intros r Hr. split; [now apply Hle | now apply Hge].
Qed.





(** ** The reference instance meets what is assumed of a solver *)

Lemma Rleb_true (a b : R) : Rleb a b = true <-> a <= b.
Proof. unfold Rleb. destruct (Rle_dec a b); split; trivial; [discriminate | contradiction]. Qed.

Lemma in_bounds_b_sound (bounds : list (R * R)) (w : vector) :
  in_bounds_b bounds w = true -> within_bounds bounds w.
Proof.
  unfold in_bounds_b, within_bounds.
  revert w; induction bounds as [| b bounds IH]; intros [| wi w]; simpl;
    try discriminate; [constructor |].
  intros H. apply andb_true_iff in H as [Hlen H].
  apply andb_true_iff in H as [Hb H].
  apply andb_true_iff in Hb as [Hlo Hhi].
  apply Rleb_true in Hlo, Hhi. constructor; [split; assumption |].
  apply IH. now rewrite Hlen, H.
Qed.

Lemma first_iterate_solver_run (tol : R) (f : vector -> outcome float64)
    (x0 : vector) (cons : list constraint) (bounds : list (R * R))
    (vs : list R) (v : float64) :
  mapM (fun c => cfun c x0) cons = Returned vs ->
  f x0 = Returned v ->
  first_iterate_solver tol f x0 cons bounds =
  if in_bounds_b bounds x0 && forallb (constraint_met_b tol x0) cons then
    Returned (OptimizeResult.Make x0 true 0 "Optimization terminated successfully")
  else
    Returned (OptimizeResult.Make x0 false 9 "Iteration limit reached").
Proof.
  intros Hc Hf. unfold first_iterate_solver. rewrite Hc, Hf. reflexivity.
Qed.

Lemma first_iterate_solver_reports (tol : R) :
  reports_objective_error (first_iterate_solver tol).
Proof.
  intros f x0 cons bounds e Hcons Hf. unfold first_iterate_solver.
  destruct (mapM_total (fun c => cfun c x0) cons Hcons) as (vs & ->).
  simpl. now rewrite Hf.
Qed.

Lemma first_iterate_solver_division (tol : R) :
  division_errors_come_from_callbacks (first_iterate_solver tol).
Proof.
  intros f x0 cons bounds e H _. unfold first_iterate_solver in H.
  apply bind_raised in H as [H | (vs & _ & H)].
  - right. apply mapM_raised in H as (c & Hin & Hc). eauto.
  - apply bind_raised in H as [H | (v & _ & H)]; [left; eauto |].
    destruct (in_bounds_b bounds x0 && forallb (constraint_met_b tol x0) cons);
      discriminate H.
Qed.

Lemma first_iterate_solver_feasible (tol : R) :
  success_means_feasible tol (first_iterate_solver tol).
Proof.
  intros f x0 cons bounds res H Hs. unfold first_iterate_solver in H.
  apply bind_returned in H as (vs & _ & H).
  apply bind_returned in H as (v & _ & H).
  destruct (in_bounds_b bounds x0) eqn:Hb; simpl in H.
  2: { injection H as <-. discriminate Hs. }
  destruct (forallb (constraint_met_b tol x0) cons) eqn:Hc.
  2: { injection H as <-. discriminate Hs. }
  injection H as <-. simpl. split; [now apply in_bounds_b_sound |].
  intros c Hin Heq. rewrite forallb_forall in Hc. specialize (Hc c Hin).
  unfold constraint_met_b in Hc. rewrite Heq in Hc.
  destruct (cfun c x0) as [r | e]; [| discriminate Hc].
  exists r. split; [reflexivity | now apply Rleb_true].
Qed.

(** ** Claims on the solvers *)

Lemma py_int_div_pos (a n : nat) :
  n <> 0%nat -> py_int_div a n = Returned (INR a / INR n).
Proof.
  intros H. unfold py_int_div. destruct (Nat.eqb_spec n 0); [contradiction | reflexivity].
Qed.

Lemma constraints_return_at_guess (target : R) (er : vector) (g : R) (c : constraint) :
  In c [return_is_target target er; weights_sum_to_1] ->
  exists v, cfun c (repeat g (length er)) = Returned v.
Proof.
  intros [<- | [<- | []]]; simpl; [| eauto].
  unfold portfolio_return, matmul_1d_1d. rewrite repeat_length, Nat.eqb_refl.
  simpl. eauto.
Qed.

Lemma neg_sharpe_ratio_raised (w : vector) (rf : R) (er : vector) (cov : matrix)
    (e : exn) :
  neg_sharpe_ratio w rf er cov = Raised e -> e = ValueError matmul_mismatch.
Proof.
  unfold neg_sharpe_ratio. intros H.
  apply bind_raised in H as [H | (r & _ & H)];
    [now apply portfolio_return_raised in H |].
  apply bind_raised in H as [H | (v & _ & H)];
    [now apply portfolio_vol_raised in H | discriminate H].
Qed.

(** C1 (as the code has it).  [minimize_vol] and [msr] return [results.x]
    whatever the solver reports: when the solver returns a result flagged
    as not converged, that result's vector is handed to the caller and
    nothing is raised.  The only exceptions of the two functions are those
    of the solver call itself (or of [1/n] before it). *)
Theorem unconverged_result_is_returned (minimize : solver) (target rf : R)
    (er : vector) (cov : matrix) :
  (forall res,
      minimize_vol_results minimize target er cov = Returned res ->
      OptimizeResult.success res = false ->
      minimize_vol minimize target er cov = Returned (OptimizeResult.x res)) /\
  (forall res,
      msr_results minimize rf er cov = Returned res ->
      OptimizeResult.success res = false ->
      msr minimize rf er cov = Returned (OptimizeResult.x res)) /\
  (forall e,
      minimize_vol minimize target er cov = Raised e ->
      minimize_vol_results minimize target er cov = Raised e) /\
  (forall e,
      msr minimize rf er cov = Raised e ->
      msr_results minimize rf er cov = Raised e).
Proof.
  unfold minimize_vol, msr. repeat split.
  - intros res -> _. reflexivity.
  - intros res -> _. reflexivity.
  - intros e H. apply bind_raised in H as [H | (res & _ & H)];
      [exact H | discriminate H].
  - intros e H. apply bind_raised in H as [H | (res & _ & H)];
      [exact H | discriminate H].
Qed.

(** The run of the reference instance on the infeasible target 2 for two
    assets of expected returns 1/20 and 1/10. *)
Lemma infeasible_target_run :
  minimize_vol_results (first_iterate_solver (1 / 1000000)) 2 [1 / 20; 1 / 10]
    [[4; 1]; [1; 9]] =
  Returned (OptimizeResult.Make [INR 1 / INR 2; INR 1 / INR 2] false 9
              "Iteration limit reached").
Proof.
  unfold minimize_vol_results. simpl.
  destruct (portfolio_vol_match [1 / (1 + 1); 1 / (1 + 1)] [[4; 1]; [1; 9]])
    as (v & Hv); trivial.
  erewrite first_iterate_solver_run; [| reflexivity | exact Hv].
  replace (forallb _ _) with false; [now rewrite andb_false_r |].
  symmetry. simpl. unfold constraint_met_b at 1. simpl.
  replace (Rleb _ _) with false; [reflexivity |].
  symmetry. unfold Rleb. destruct (Rle_dec _ _) as [H | H]; [| reflexivity].
  exfalso. revert H. unfold Rabs. destruct (Rcase_abs _); lra.
Qed.

(** C1 fails as stated: on the infeasible target 2 the solver run reports
    that it did not converge, and [minimize_vol] returns the weight vector
    of that run; no OptimizationError is raised. *)
Lemma minimize_vol_returns_unconverged :
  exists res,
    minimize_vol_results (first_iterate_solver (1 / 1000000)) 2 [1 / 20; 1 / 10]
      [[4; 1]; [1; 9]] = Returned res /\
    OptimizeResult.success res = false /\
    minimize_vol (first_iterate_solver (1 / 1000000)) 2 [1 / 20; 1 / 10]
      [[4; 1]; [1; 9]] = Returned (OptimizeResult.x res) /\
    forall e, minimize_vol (first_iterate_solver (1 / 1000000)) 2 [1 / 20; 1 / 10]
                [[4; 1]; [1; 9]] <> Raised e.
Proof.
  eexists. split; [apply infeasible_target_run |].
  unfold minimize_vol. rewrite infeasible_target_run. simpl.
  repeat split. discriminate.
Qed.

Lemma within_unit_bounds (n : nat) (w : vector) :
  within_bounds (repeat (0, 1) n) w ->
  length w = n /\ Forall (fun wi => 0 <= wi <= 1) w.
Proof.
  unfold within_bounds. revert w; induction n as [| n IH]; intros w H;
    simpl in H; inversion H as [| b wi bs w' Hb Hrest]; subst.
  - split; [reflexivity | constructor].
  - destruct (IH _ Hrest) as [Hl Hf]. split; [simpl; congruence |].
    constructor; [exact Hb | exact Hf].
Qed.

(** C4 (as the code has it).  For a solver whose successful results are
    feasible within [tol]: when the solver call of [minimize_vol] reports
    success, the vector that [minimize_vol] returns has one weight per
    asset, each in [0, 1], sums to 1 within [tol] and has the target return
    within [tol]. *)
Theorem minimize_vol_feasible_on_success (minimize : solver) (tol target : R)
    (er : vector) (cov : matrix) (res : OptimizeResult.t) :
  success_means_feasible tol minimize ->
  minimize_vol_results minimize target er cov = Returned res ->
  OptimizeResult.success res = true ->
  minimize_vol minimize target er cov = Returned (OptimizeResult.x res) /\
  length (OptimizeResult.x res) = length er /\
  meets_min_vol_constraints tol target er (OptimizeResult.x res).
Proof.
  intros Hsolver Hres Hsucc.
  split; [unfold minimize_vol; now rewrite Hres |].
  unfold minimize_vol_results in Hres.
  apply bind_returned in Hres as (g & _ & Hres).
  destruct (Hsolver _ _ _ _ _ Hres Hsucc) as [Hb Hc].
  apply within_unit_bounds in Hb as [Hlen Hunit].
  destruct (Hc (return_is_target target er)) as (v1 & H1 & Hv1);
    [now left | reflexivity |].
  destruct (Hc weights_sum_to_1) as (v2 & H2 & Hv2);
    [right; now left | reflexivity |].
  simpl in H1, H2.
  apply bind_returned in H1 as (r & Hr & H1).
  injection H1 as <-. injection H2 as <-.
  split; [exact Hlen |]. unfold meets_min_vol_constraints, approx.
  split; [exact Hv2 |]. split; [| exact Hunit].
  exists r. split; [exact Hr |]. now rewrite Rabs_minus_sym.
Qed.

(** The run of the reference instance on the feasible target 3/40, the
    return of the equal-weight portfolio. *)
Lemma feasible_target_run :
  minimize_vol_results (first_iterate_solver (1 / 1000000)) (3 / 40)
    [1 / 20; 1 / 10] [[4; 1]; [1; 9]] =
  Returned (OptimizeResult.Make [INR 1 / INR 2; INR 1 / INR 2] true 0
              "Optimization terminated successfully").
Proof.
  unfold minimize_vol_results. simpl.
  destruct (portfolio_vol_match [1 / (1 + 1); 1 / (1 + 1)] [[4; 1]; [1; 9]])
    as (v & Hv); trivial.
  erewrite first_iterate_solver_run; [| reflexivity | exact Hv].
  assert (Hle : forall a b, a <= b -> Rleb a b = true)
    by (intros; now apply Rleb_true).
  unfold in_bounds_b, constraint_met_b. simpl.
  rewrite !Hle; try lra; try reflexivity;
    unfold Rabs; destruct (Rcase_abs _); lra.
Qed.

Lemma minimize_vol_feasible_on_success_witness :
  minimize_vol (first_iterate_solver (1 / 1000000)) (3 / 40) [1 / 20; 1 / 10]
    [[4; 1]; [1; 9]] = Returned [INR 1 / INR 2; INR 1 / INR 2] /\
  length [INR 1 / INR 2; INR 1 / INR 2] = length [1 / 20; 1 / 10] /\
  meets_min_vol_constraints (1 / 1000000) (3 / 40) [1 / 20; 1 / 10]
    [INR 1 / INR 2; INR 1 / INR 2].
Proof.
  apply (minimize_vol_feasible_on_success (first_iterate_solver (1 / 1000000))
           (1 / 1000000) (3 / 40) [1 / 20; 1 / 10] [[4; 1]; [1; 9]]
           (OptimizeResult.Make [INR 1 / INR 2; INR 1 / INR 2] true 0
              "Optimization terminated successfully")).
  - apply first_iterate_solver_feasible.
  - apply feasible_target_run.
  - reflexivity.
Defined.

(** No vector with entries in [0, 1] that sums to 1 within 1/2 has a
    return within 1/2 of the target 2 on these two assets. *)
Lemma target_two_infeasible (w : vector) :
  ~ meets_min_vol_constraints (1 / 2) 2 [1 / 20; 1 / 10] w.
Proof.
  intros (_ & (r & Hr & Hap) & Hunit).
  unfold portfolio_return, matmul_1d_1d in Hr.
  destruct w as [| a [| b [| c w]]]; simpl in Hr; try discriminate Hr.
  injection Hr as <-.
  inversion Hunit as [| ? ? Ha Hrest]; subst.
  inversion Hrest as [| ? ? Hb _]; subst.
  unfold approx in Hap. revert Hap. unfold Rabs. destruct (Rcase_abs _); lra.
Qed.

(** C4 fails as stated: on the infeasible target 2 [minimize_vol] returns a
    weight vector, and whatever the solver, a vector returned for this
    input cannot meet the constraints, even within a tolerance of 1/2. *)
Lemma minimize_vol_output_infeasible :
  (exists w,
      minimize_vol (first_iterate_solver (1 / 1000000)) 2 [1 / 20; 1 / 10]
        [[4; 1]; [1; 9]] = Returned w) /\
  (forall (minimize : solver) (w : vector),
      minimize_vol minimize 2 [1 / 20; 1 / 10] [[4; 1]; [1; 9]] = Returned w ->
      ~ meets_min_vol_constraints (1 / 2) 2 [1 / 20; 1 / 10] w).
Proof.
  split.
  - unfold minimize_vol. rewrite infeasible_target_run. simpl. eauto.
  - intros minimize w _. apply target_two_infeasible.
Qed.

(** C3 (as the code has it).  With a covariance that is not n x n for the
    [n >= 1] assets of [er], [portfolio_vol] raises the ValueError of the
    matrix product at every candidate of length [n]; [minimize_vol], [msr]
    and (for a non-square covariance) [gmv] have no check of their own, and
    with a solver that evaluates the objective at the initial guess they
    raise that same ValueError.  The mismatch is never coerced. *)
Theorem shape_mismatch_raises_ValueError (minimize : solver) (target rf : R)
    (er : vector) (cov : matrix) :
  reports_objective_error minimize ->
  er <> [] ->
  nrows cov <> length er \/ ncols cov <> length er ->
  (forall w, length w = length er ->
     portfolio_vol w cov = Raised (ValueError matmul_mismatch)) /\
  minimize_vol minimize target er cov = Raised (ValueError matmul_mismatch) /\
  msr minimize rf er cov = Raised (ValueError matmul_mismatch) /\
  (nrows cov = length er ->
     gmv minimize cov = Raised (ValueError matmul_mismatch)).
Proof.
  intros Hsolver Hne Hshape.
  assert (Hn : length er <> 0%nat) by (destruct er; [congruence | discriminate]).
  assert (Hvol : forall w, length w = length er ->
                   portfolio_vol w cov = Raised (ValueError matmul_mismatch)).
  { intros w Hw. apply portfolio_vol_mismatch. rewrite Hw.
    destruct Hshape; [left | right]; congruence. }
  assert (Hmsr : forall er', length er' = length er ->
                   msr minimize rf er' cov = Raised (ValueError matmul_mismatch)
                   /\ msr minimize 0 er' cov = Raised (ValueError matmul_mismatch)).
  { intros er' Hl.
    assert (G : forall r,
               msr minimize r er' cov = Raised (ValueError matmul_mismatch)).
    { intros r. unfold msr, msr_results. rewrite py_int_div_pos by congruence.
      simpl. rewrite Hsolver with (e := ValueError matmul_mismatch); trivial.
      - intros c [<- | []]. simpl. eauto.
      - unfold neg_sharpe_ratio, portfolio_return, matmul_1d_1d.
        rewrite repeat_length, Nat.eqb_refl. simpl.
        rewrite Hvol; [reflexivity |]. rewrite repeat_length. exact Hl. }
    split; apply G. }
  repeat split.
  - exact Hvol.
  - unfold minimize_vol, minimize_vol_results. rewrite py_int_div_pos by exact Hn.
    simpl. rewrite Hsolver with (e := ValueError matmul_mismatch); trivial.
    + intros c Hc. now apply (constraints_return_at_guess target er).
    + apply Hvol. apply repeat_length.
  - apply Hmsr. reflexivity.
  - intros Hr. unfold gmv. apply Hmsr. rewrite repeat_length. exact Hr.
Qed.

Lemma shape_mismatch_raises_ValueError_witness :
  (forall w, length w = length [1 / 20; 1 / 10] ->
     portfolio_vol w [[4; 1; 0]; [1; 9; 0]] = Raised (ValueError matmul_mismatch)) /\
  minimize_vol (first_iterate_solver (1 / 1000000)) (3 / 40) [1 / 20; 1 / 10]
    [[4; 1; 0]; [1; 9; 0]] = Raised (ValueError matmul_mismatch) /\
  msr (first_iterate_solver (1 / 1000000)) 0 [1 / 20; 1 / 10]
    [[4; 1; 0]; [1; 9; 0]] = Raised (ValueError matmul_mismatch) /\
  (nrows [[4; 1; 0]; [1; 9; 0]] = length [1 / 20; 1 / 10] ->
     gmv (first_iterate_solver (1 / 1000000)) [[4; 1; 0]; [1; 9; 0]] =
     Raised (ValueError matmul_mismatch)).
Proof.
  apply (shape_mismatch_raises_ValueError (first_iterate_solver (1 / 1000000))
           (3 / 40) 0 [1 / 20; 1 / 10] [[4; 1; 0]; [1; 9; 0]]).
  - apply first_iterate_solver_reports.
  - discriminate.
  - right. simpl. lia.
Defined.

(** C3 fails as stated: two weights against a 1 x 1 covariance raise the
    ValueError of the matrix product, which is not a ShapeError; the same
    ValueError leaves [minimize_vol], from inside the solver call. *)
Lemma mismatch_is_ValueError_not_ShapeError :
  portfolio_vol [1; 1] [[1]] = Raised (ValueError matmul_mismatch) /\
  (forall msg, portfolio_vol [1; 1] [[1]] <> Raised (ShapeError msg)) /\
  minimize_vol (first_iterate_solver (1 / 1000000)) (3 / 40) [1 / 20; 1 / 10]
    [[1]] = Raised (ValueError matmul_mismatch) /\
  exn_class (ValueError matmul_mismatch) <> "ShapeError".
Proof.
  assert (H : portfolio_vol [1; 1] [[1]] = Raised (ValueError matmul_mismatch))
    by reflexivity.
  repeat split; trivial.
  - intros msg. rewrite H. discriminate.
  - discriminate.
Qed.

(** C5.  For an N x N covariance, [gmv(cov)] is the call of [msr] with
    risk-free rate 0 and the all-ones expected-returns vector of length N:
    the same solver call, with the same objective, guess, constraint and
    bounds. *)
Theorem gmv_is_msr_special_case (minimize : solver) (n : nat) (cov : matrix) :
  nrows cov = n -> ncols cov = n ->
  gmv minimize cov = msr minimize 0 (repeat 1 n) cov /\
  length (repeat 1 n) = n /\
  Forall (fun r => r = 1) (repeat 1 n) /\
  gmv minimize cov =
    (g <- py_int_div 1 n ;;
     results <- minimize (fun weights => neg_sharpe_ratio weights 0 (repeat 1 n) cov)
                  (repeat g n) [weights_sum_to_1] (repeat (0, 1) n) ;;
     Returned (OptimizeResult.x results)).
Proof.
  intros <- _. unfold gmv. repeat split.
  - apply repeat_length.
  - apply Forall_forall. intros r Hr. now apply repeat_spec in Hr.
  - unfold msr, msr_results. rewrite repeat_length.
    destruct (py_int_div 1 (nrows cov)); reflexivity.
Qed.

Lemma gmv_is_msr_special_case_witness :
  gmv (first_iterate_solver (1 / 1000000)) [[4; 1]; [1; 9]] =
    msr (first_iterate_solver (1 / 1000000)) 0 (repeat 1 2) [[4; 1]; [1; 9]] /\
  length (repeat 1 2) = 2%nat /\
  Forall (fun r => r = 1) (repeat 1 2) /\
  gmv (first_iterate_solver (1 / 1000000)) [[4; 1]; [1; 9]] =
    (g <- py_int_div 1 2 ;;
     results <- first_iterate_solver (1 / 1000000)
                  (fun weights => neg_sharpe_ratio weights 0 (repeat 1 2) [[4; 1]; [1; 9]])
                  (repeat g 2) [weights_sum_to_1] (repeat (0, 1) 2) ;;
     Returned (OptimizeResult.x results)).
Proof.
  apply (gmv_is_msr_special_case (first_iterate_solver (1 / 1000000)) 2
           [[4; 1]; [1; 9]]); reflexivity.
Defined.

Lemma np_div_by_zero (num : R) : ~ is_finite (np_div num (Fin 0)).
Proof.
  unfold np_div. destruct (Req_dec_T 0 0) as [_ | H]; [| now contradiction H].
  destruct (Rlt_dec 0 num); [exact (fun F => F) |].
  destruct (Rlt_dec num 0); exact (fun F => F).
Qed.

(** C8 (as the code has it).  At a candidate of zero volatility the
    objective of [msr] raises nothing: the float64 division returns an
    infinity or [nan].  The
    objective can only raise the ValueError of a shape mismatch, and for a
    solver that adds no division error of its own and a non-empty [er], no
    ZeroDivisionError leaves [msr]. *)
Theorem msr_no_division_error (minimize : solver) (rf : R) (er : vector)
    (cov : matrix) :
  division_errors_come_from_callbacks minimize ->
  er <> [] ->
  (forall w, length w = length er -> portfolio_vol w cov = Returned (Fin 0) ->
     exists v, neg_sharpe_ratio w rf er cov = Returned v /\ ~ is_finite v) /\
  (forall w e, neg_sharpe_ratio w rf er cov = Raised e ->
     exn_class e = "ValueError") /\
  (forall e, msr minimize rf er cov = Raised e ->
     exn_class e <> "ZeroDivisionError").
Proof.
  intros Hsolver Hne. repeat split.
  - intros w Hw Hv. unfold neg_sharpe_ratio, portfolio_return, matmul_1d_1d.
    rewrite Hw, Nat.eqb_refl. simpl. rewrite Hv. simpl.
    eexists. split; [reflexivity | apply np_div_by_zero].
  - intros w e H. apply neg_sharpe_ratio_raised in H. now subst e.
  - intros e H Hclass. unfold msr in H.
    apply bind_raised in H as [H | (res & _ & H)]; [| discriminate H].
    unfold msr_results in H. rewrite py_int_div_pos in H
      by (destruct er; [congruence | discriminate]).
    simpl in H.
    destruct (Hsolver _ _ _ _ _ H Hclass) as [(w & Hw) | (c & w & Hin & Hc)].
    + apply neg_sharpe_ratio_raised in Hw. subst e. discriminate Hclass.
    + destruct Hin as [<- | []]. discriminate Hc.
Qed.

Lemma msr_no_division_error_witness :
  (forall w, length w = length [1 / 10] -> portfolio_vol w [[0]] = Returned (Fin 0) ->
     exists v, neg_sharpe_ratio w 0 [1 / 10] [[0]] = Returned v /\ ~ is_finite v) /\
  (forall w e, neg_sharpe_ratio w 0 [1 / 10] [[0]] = Raised e ->
     exn_class e = "ValueError") /\
  (forall e, msr (first_iterate_solver (1 / 1000000)) 0 [1 / 10] [[0]] = Raised e ->
     exn_class e <> "ZeroDivisionError").
Proof.
  apply (msr_no_division_error (first_iterate_solver (1 / 1000000)) 0 [1 / 10] [[0]]).
  - apply first_iterate_solver_division.
  - discriminate.
Defined.

(** C8 fails as stated: with one asset and the 1 x 1 zero covariance, the
    candidate [[1]] is within the bounds, meets the sum-to-1 constraint and
    has volatility 0; the bounds and the constraint do not reject it, the
    objective there is minus infinity, and the run of the reference
    instance returns that candidate. *)
Lemma zero_vol_candidate_not_rejected :
  within_bounds (repeat (0, 1) 1) [1] /\
  cfun weights_sum_to_1 [1] = Returned (1 + 0 - 1) /\
  portfolio_vol [1] [[0]] = Returned (Fin 0) /\
  neg_sharpe_ratio [1] 0 [1 / 10] [[0]] = Returned NInf /\
  (exists w,
      msr (first_iterate_solver (1 / 1000000)) 0 [1 / 10] [[0]] = Returned w /\
      w = [1]).
Proof.
  assert (Hq : radicand [1] [[0]] = Returned 0) by radicand_at.
  assert (Hv : portfolio_vol [1] [[0]] = Returned (Fin 0)).
  { rewrite (portfolio_vol_of_radicand _ _ _ Hq), np_pow_half_nonneg by lra.
    now rewrite sqrt_0. }
  assert (Hobj : neg_sharpe_ratio [1] 0 [1 / 10] [[0]] = Returned NInf).
  { unfold neg_sharpe_ratio. rewrite Hv. metric_at. unfold np_div.
    destruct (Req_dec_T 0 0) as [_ | H]; [| now contradiction H].
    destruct (Rlt_dec 0 _); [lra |]. destruct (Rlt_dec _ 0); [reflexivity | lra]. }
  assert (Hle : forall a b, a <= b -> Rleb a b = true)
    by (intros; now apply Rleb_true).
  repeat split; trivial.
  - repeat constructor; simpl; lra.
  - exists [INR 1 / INR 1]. split; [| simpl; f_equal; lra].
    unfold msr, msr_results. simpl.
    replace (1 / 1) with 1 by lra.
    erewrite first_iterate_solver_run; [| reflexivity | exact Hobj].
    unfold in_bounds_b, constraint_met_b. simpl.
    rewrite !Hle; try lra; try reflexivity.
    unfold Rabs; destruct (Rcase_abs _); lra.
Qed.

(** With an empty [er] the quotient [1/n] of the initial guess raises
    before the solver is called. *)
Lemma msr_empty_er (minimize : solver) (rf : R) (cov : matrix) :
  msr minimize rf [] cov = Raised (ZeroDivisionError "division by zero").
Proof. reflexivity. Qed.

(** ** Further properties of the portfolio metrics *)

Lemma dot_sum_comm (u v : vector) : dot_sum u v = dot_sum v u.
Proof.
  revert v; induction u as [| a u IH]; intros [| b v]; simpl; trivial.
  rewrite IH. ring.
Qed.

Lemma one_hot_S (n i : nat) : one_hot (S n) (S i) = 0 :: one_hot n i.
Proof.
  unfold one_hot. simpl. f_equal. rewrite <- seq_shift, map_map. reflexivity.
Qed.

Lemma one_hot_0 (n : nat) :
  one_hot (S n) 0 = 1 :: map (fun _ => 0) (seq 1 n).
Proof.
  unfold one_hot. simpl. f_equal. apply map_ext_in.
  intros j Hj. apply in_seq in Hj. destruct j; [lia | reflexivity].
Qed.

Lemma dot_sum_one_hot (n i : nat) (v : vector) :
  (i < n)%nat -> length v = n -> dot_sum (one_hot n i) v = nth i v 0.
Proof.
  revert n v; induction i as [| i IH]; intros [| n] [| b v] Hi Hv;
    simpl in Hv; try lia; try discriminate.
  - rewrite one_hot_0. simpl. rewrite dot_sum_map_zero. ring.
  - rewrite one_hot_S. simpl. rewrite IH by lia. ring.
Qed.

(** X3.  Putting all the weight on asset [i] gives the volatility of that
    asset alone: for an n x n covariance with [C[i][i] >= 0],
    [portfolio_vol] of the weights [one_hot n i] is [sqrt(C[i][i])]. *)
Theorem single_asset_volatility (n i : nat) (C : matrix) :
  nrows C = n -> ncols C = n -> rectangular C -> (i < n)%nat ->
  0 <= entry C i i ->
  portfolio_vol (one_hot n i) C = Returned (Fin (sqrt (entry C i i))).
Proof.
  intros Hr Hc Hrect Hi Hpos.
  assert (Hl : length (one_hot n i) = n)
    by (unfold one_hot; now rewrite length_map, length_seq).
  assert (Hq : quad_form (one_hot n i) C = entry C i i).
  { unfold quad_form. rewrite dot_sum_one_hot by (rewrite ?length_map; trivial).
    assert (HC : (i < length C)%nat) by (change (i < nrows C)%nat; lia).
    rewrite (nth_map_in (fun row : vector => dot_sum row (one_hot n i)) C i 0 [])
      by exact HC.
    rewrite dot_sum_comm, dot_sum_one_hot; trivial.
    unfold rectangular in Hrect. rewrite Forall_forall in Hrect.
    rewrite Hrect by (apply nth_In; exact HC). exact Hc. }
  rewrite (portfolio_vol_of_radicand _ _ (quad_form (one_hot n i) C)).
  - rewrite Hq. now rewrite np_pow_half_nonneg.
  - apply radicand_defined; congruence.
Qed.

Lemma single_asset_volatility_witness :
  portfolio_vol (one_hot 2 1) [[4; 1]; [1; 9]] =
  Returned (Fin (sqrt (entry [[4; 1]; [1; 9]] 1 1))).
Proof.
  apply (single_asset_volatility 2 1 [[4; 1]; [1; 9]]).
  - reflexivity.
  - reflexivity.
  - repeat constructor.
  - lia.
  - unfold entry; simpl; lra.
Defined.

(** ** Further properties of [plot_ef2] *)

Lemma mapM_map {A B : Type} (f : A -> outcome B) (g : A -> B) (l : list A) :
  (forall a, In a l -> f a = Returned (g a)) ->
  mapM f l = Returned (map g l).
Proof.
  induction l as [| a l IH]; intros H; simpl; [reflexivity |].
  rewrite H by now left. simpl. rewrite IH by (intros; apply H; now right).
  reflexivity.
Qed.

(** X4.  For two assets and a 2 x 2 covariance, [plot_ef2] returns a frame
    of [n_points] rows; with at least two points the first row is the
    second asset alone (weights [(0, 1)], return [er[1]]) and the last row
    the first asset alone (weights [(1, 0)], return [er[0]]). *)
Theorem plot_ef2_frame (e0 e1 : R) (cov : matrix) (n_points : nat) :
  nrows cov = 2%nat -> ncols cov = 2%nat ->
  exists fr,
    plot_ef2 [e0; e1] cov n_points = Returned fr /\
    length (Returns fr) = n_points /\
    length (Volatility fr) = n_points /\
    ((2 <= n_points)%nat ->
       nth 0 (Returns fr) 0 = 0 * e0 + ((1 - 0) * e1 + 0) /\
       nth (n_points - 1) (Returns fr) 0 = 1 * e0 + ((1 - 1) * e1 + 0) /\
       nth 0 (Returns fr) 0 = e1 /\ nth (n_points - 1) (Returns fr) 0 = e0).
Proof.
  intros Hr Hc. unfold plot_ef2. simpl.
  set (ws := map (fun w => [w; 1 - w]) (linspace 0 1 n_points)).
  rewrite (mapM_map _ (fun w => dot_sum w [e0; e1]) ws).
  2: { intros w Hw. apply in_map_iff in Hw as (t & <- & _). reflexivity. }
  destruct (mapM_total (fun w => portfolio_vol w cov) ws) as (vols & Hvols).
  { intros w Hw. apply in_map_iff in Hw as (t & <- & _).
    apply portfolio_vol_match; simpl; congruence. }
  simpl. rewrite Hvols. simpl. eexists. split; [reflexivity |]. simpl.
  assert (Hnth : forall i, (i < n_points)%nat ->
            nth i (map (fun w => dot_sum w [e0; e1]) ws) 0 =
            nth i (linspace 0 1 n_points) 0 * e0 +
            ((1 - nth i (linspace 0 1 n_points) 0) * e1 + 0)).
  { intros i Hi. unfold ws. rewrite map_map.
    rewrite (nth_map_in _ _ _ _ 0) by now rewrite length_linspace.
    reflexivity. }
  split; [| split].
  - unfold ws. now rewrite !length_map, length_linspace.
  - apply mapM_returned, Forall2_length in Hvols. rewrite <- Hvols.
    unfold ws. now rewrite length_map, length_linspace.
  - intros Hn. rewrite !Hnth by lia.
    rewrite linspace_first, linspace_last by lia.
    repeat split; ring.
Qed.

Lemma plot_ef2_frame_witness :
  exists fr,
    plot_ef2 [1 / 20; 1 / 10] [[4; 1]; [1; 9]] 25 = Returned fr /\
    length (Returns fr) = 25%nat /\
    length (Volatility fr) = 25%nat /\
    ((2 <= 25)%nat ->
       nth 0 (Returns fr) 0 = 0 * (1 / 20) + ((1 - 0) * (1 / 10) + 0) /\
       nth (25 - 1) (Returns fr) 0 = 1 * (1 / 20) + ((1 - 1) * (1 / 10) + 0) /\
       nth 0 (Returns fr) 0 = 1 / 10 /\ nth (25 - 1) (Returns fr) 0 = 1 / 20).
Proof.
  apply (plot_ef2_frame (1 / 20) (1 / 10) [[4; 1]; [1; 9]] 25); reflexivity.
Defined.

(** X5.  [plot_ef2] never checks the covariance: with a two-asset [er] and
    a covariance that is not 2 x 2, it raises the ValueError of the matrix
    product when at least one point is asked for, and returns an empty
    frame when [n_points = 0]. *)
Theorem plot_ef2_unchecked_covariance (er : vector) (cov : matrix) (n_points : nat) :
  length er = 2%nat -> nrows cov <> 2%nat \/ ncols cov <> 2%nat ->
  ((0 < n_points)%nat ->
     plot_ef2 er cov n_points = Raised (ValueError matmul_mismatch)) /\
  (n_points = 0%nat -> plot_ef2 er cov n_points = Returned (Frame [] [])).
Proof.
  intros Her Hcov. split.
  - intros Hn. now apply plot_ef2_mismatched_cov.
  - intros ->. unfold plot_ef2. rewrite Her. reflexivity.
Qed.

Lemma plot_ef2_unchecked_covariance_witness :
  ((0 < 25)%nat ->
     plot_ef2 [1 / 20; 1 / 10] [[4; 1; 0]; [1; 9; 0]] 25 =
     Raised (ValueError matmul_mismatch)) /\
  (25%nat = 0%nat ->
     plot_ef2 [1 / 20; 1 / 10] [[4; 1; 0]; [1; 9; 0]] 25 = Returned (Frame [] [])).
Proof.
  apply (plot_ef2_unchecked_covariance [1 / 20; 1 / 10] [[4; 1; 0]; [1; 9; 0]] 25).
  - reflexivity.
  - right. simpl. lia.
Defined.

(** ** Further properties of the solvers' callers *)

(** X6.  On an empty asset universe no solver is ever called: for every
    solver, [minimize_vol] and [msr] on an empty [er], and [gmv] on an empty
    covariance, raise the ZeroDivisionError of [1/n]; [optimal_weights] on
    an empty [er] raises the ValueError of [er.min()]. *)
Theorem empty_universe_raises (minimize : solver) (target rf : R) (cov : matrix)
    (n_points : nat) :
  minimize_vol minimize target [] cov = Raised (ZeroDivisionError "division by zero") /\
  msr minimize rf [] cov = Raised (ZeroDivisionError "division by zero") /\
  gmv minimize [] = Raised (ZeroDivisionError "division by zero") /\
  exists msg, optimal_weights minimize [] cov n_points = Raised (ValueError msg).
Proof. repeat split. eexists. reflexivity. Qed.

Lemma Forall_repeat {A : Type} (P : A -> Prop) (a : A) (n : nat) :
  P a -> Forall P (repeat a n).
Proof. intros H. induction n; simpl; constructor; trivial. Qed.

Lemma within_bounds_repeat (g : R) (n : nat) :
  0 <= g <= 1 -> within_bounds (repeat (0, 1) n) (repeat g n).
Proof.
  intros Hg. unfold within_bounds. induction n; simpl; constructor; trivial.
Qed.

(** X7.  For a non-empty [er], [minimize_vol] and [msr] start the solver
    from the equal-weight guess: one entry [1/n] per asset, each inside the
    bounds [(0, 1)] that are handed to the solver with it. *)
Theorem solver_starts_at_equal_weights (minimize : solver) (target rf : R)
    (er : vector) (cov : matrix) :
  er <> [] ->
  exists x0,
    x0 = repeat (1 / INR (length er)) (length er) /\
    length x0 = length er /\
    Forall (fun wi => 0 <= wi <= 1) x0 /\
    within_bounds (repeat (0, 1) (length er)) x0 /\
    minimize_vol_results minimize target er cov =
      minimize (fun weights => portfolio_vol weights cov) x0
        [return_is_target target er; weights_sum_to_1] (repeat (0, 1) (length er)) /\
    msr_results minimize rf er cov =
      minimize (fun weights => neg_sharpe_ratio weights rf er cov) x0
        [weights_sum_to_1] (repeat (0, 1) (length er)).
Proof.
  intros Hne.
  assert (Hn : length er <> 0%nat) by (destruct er; [congruence | discriminate]).
  assert (Hpos : 0 < INR (length er)) by (apply lt_0_INR; lia).
  assert (Hg : 0 <= 1 / INR (length er) <= 1).
  { assert (1 <= INR (length er)) by (change 1 with (INR 1); apply le_INR; lia).
    split.
    - apply Rlt_le, Rdiv_lt_0_compat; lra.
    - apply Rmult_le_reg_r with (INR (length er)); trivial.
      unfold Rdiv. rewrite Rmult_assoc, Rinv_l by lra. lra. }
  exists (repeat (1 / INR (length er)) (length er)).
  split; [reflexivity |]. split; [apply repeat_length |].
  split; [now apply Forall_repeat |]. split; [now apply within_bounds_repeat |].
  split.
  - unfold minimize_vol_results. now rewrite py_int_div_pos.
  - unfold msr_results. now rewrite py_int_div_pos.
Qed.

Lemma solver_starts_at_equal_weights_witness :
  exists x0,
    x0 = repeat (1 / INR (length [1 / 20; 1 / 10])) (length [1 / 20; 1 / 10]) /\
    length x0 = length [1 / 20; 1 / 10] /\
    Forall (fun wi => 0 <= wi <= 1) x0 /\
    within_bounds (repeat (0, 1) (length [1 / 20; 1 / 10])) x0 /\
    minimize_vol_results (first_iterate_solver (1 / 1000000)) (3 / 40)
      [1 / 20; 1 / 10] [[4; 1]; [1; 9]] =
      first_iterate_solver (1 / 1000000)
        (fun weights => portfolio_vol weights [[4; 1]; [1; 9]]) x0
        [return_is_target (3 / 40) [1 / 20; 1 / 10]; weights_sum_to_1]
        (repeat (0, 1) (length [1 / 20; 1 / 10])) /\
    msr_results (first_iterate_solver (1 / 1000000)) 0 [1 / 20; 1 / 10]
      [[4; 1]; [1; 9]] =
      first_iterate_solver (1 / 1000000)
        (fun weights => neg_sharpe_ratio weights 0 [1 / 20; 1 / 10] [[4; 1]; [1; 9]])
        x0 [weights_sum_to_1] (repeat (0, 1) (length [1 / 20; 1 / 10])).
Proof.
  apply (solver_starts_at_equal_weights (first_iterate_solver (1 / 1000000))
           (3 / 40) 0 [1 / 20; 1 / 10] [[4; 1]; [1; 9]]).
  discriminate.
Defined.

(** A comprehension raises exactly the exception of its first failing
    element. *)
Lemma mapM_raised_first {A B : Type} (f : A -> outcome B) (l : list A) (e : exn) :
  mapM f l = Raised e <->
  exists l1 a l2 bs,
    l = (l1 ++ a :: l2)%list /\ mapM f l1 = Returned bs /\ f a = Raised e.
Proof.
  induction l as [| a l IH]; simpl.
  - split; [discriminate |].
    intros (l1 & a & l2 & bs & H & _). destruct l1; discriminate H.
  - split.
    + destruct (f a) as [b | e'] eqn:Fa; simpl.
      * destruct (mapM f l) as [bs | e''] eqn:Fl; simpl; [discriminate |].
        intros H. injection H as ->.
        destruct IH as [IH _]. destruct (IH eq_refl) as (l1 & a' & l2 & bs & -> & H1 & H2).
        exists (a :: l1), a', l2, (b :: bs). simpl. rewrite Fa, H1. now repeat split.
      * intros H. injection H as ->.
        exists [], a, l, []. now repeat split.
    + intros (l1 & a' & l2 & bs & Hl & H1 & H2).
      destruct l1 as [| a1 l1]; simpl in Hl; injection Hl as -> ->.
      * now rewrite H2.
      * simpl in H1. destruct (f a1) as [b | e'] eqn:Fa; simpl in *; [| discriminate].
        destruct (mapM f l1) as [bs1 | e'] eqn:F1; simpl in H1; [| discriminate].
        assert (Hr : mapM f (l1 ++ a' :: l2)%list = Raised e).
        { apply IH. exists l1, a', l2, bs1. now repeat split. }
        now rewrite Hr.
Qed.

(** X8.  The frontier sweep stops at the first failure: [optimal_weights]
    raises [e] exactly when [minimize_vol] raises [e] at some target and
    returns at every target before it; later targets are not tried.  With
    [n_points = 0] it returns the empty list. *)
Theorem optimal_weights_stops_at_first_failure (minimize : solver) (er : vector)
    (cov : matrix) (n_points : nat) (e : exn) :
  er <> [] ->
  exists ts,
    target_rs er n_points = Returned ts /\
    (optimal_weights minimize er cov n_points = Raised e <->
     exists before t after ws,
       ts = (before ++ t :: after)%list /\
       Forall2 (fun t' w => minimize_vol minimize t' er cov = Returned w) before ws /\
       minimize_vol minimize t er cov = Raised e) /\
    (n_points = 0%nat -> optimal_weights minimize er cov n_points = Returned []).
Proof.
  intros Hne.
  destruct (np_min_max_spec er Hne) as (lo & hi & Hlo & Hhi & _).
  assert (Hts : target_rs er n_points = Returned (linspace lo hi n_points))
    by (unfold target_rs; now rewrite Hlo, Hhi).
  exists (linspace lo hi n_points). split; [exact Hts |]. split.
  - unfold optimal_weights. rewrite Hts. simpl. rewrite mapM_raised_first.
    split; intros (l1 & t & l2 & ws & H1 & H2 & H3); exists l1, t, l2, ws;
      repeat split; trivial; now apply mapM_returned.
  - intros ->. unfold optimal_weights. rewrite Hts. reflexivity.
Qed.

Lemma optimal_weights_stops_at_first_failure_witness :
  exists ts,
    target_rs [1 / 20; 1 / 10] 25 = Returned ts /\
    (optimal_weights (first_iterate_solver (1 / 1000000)) [1 / 20; 1 / 10]
       [[4; 1; 0]; [1; 9; 0]] 25 = Raised (ValueError matmul_mismatch) <->
     exists before t after ws,
       ts = (before ++ t :: after)%list /\
       Forall2 (fun t' w =>
                  minimize_vol (first_iterate_solver (1 / 1000000)) t'
                    [1 / 20; 1 / 10] [[4; 1; 0]; [1; 9; 0]] = Returned w) before ws /\
       minimize_vol (first_iterate_solver (1 / 1000000)) t [1 / 20; 1 / 10]
         [[4; 1; 0]; [1; 9; 0]] = Raised (ValueError matmul_mismatch)) /\
    (25%nat = 0%nat ->
     optimal_weights (first_iterate_solver (1 / 1000000)) [1 / 20; 1 / 10]
       [[4; 1; 0]; [1; 9; 0]] 25 = Returned []).
Proof.
  apply (optimal_weights_stops_at_first_failure (first_iterate_solver (1 / 1000000))
           [1 / 20; 1 / 10] [[4; 1; 0]; [1; 9; 0]] 25 (ValueError matmul_mismatch)).
  discriminate.
Defined.

(** ** [drawdown] *)




Lemma nondecreasing_cons (a : R) (l : vector) :
  Forall (fun b => a <= b) l -> nondecreasing l -> nondecreasing (a :: l).
Proof.
  intros Hall Hl i j Hij. simpl in Hij.
  destruct i as [| i'], j as [| j']; simpl; try lia; try lra.
  - rewrite Forall_forall in Hall. apply Hall, nth_In. lia.
  - apply Hl. lia.
Qed.

Lemma scan_max_spec (l : vector) :
  forall acc,
    Forall (fun p => acc <= p) (scan Rmax acc l) /\
    Forall2 (fun a p => a <= p) l (scan Rmax acc l) /\
    nondecreasing (scan Rmax acc l).
Proof.
  induction l as [| a l IH]; intros acc; simpl.
  - split; [constructor | split; [constructor |]].
    intros i j Hij. simpl in Hij. lia.
  - destruct (IH (Rmax acc a)) as (Hge & Hle & Hmono).
    pose proof (Rmax_l acc a). pose proof (Rmax_r acc a).
    split; [| split].
    + constructor; trivial. eapply Forall_impl; [| exact Hge].
      simpl. intros; lra.
    + constructor; trivial.
    + now apply nondecreasing_cons.
Qed.

Lemma cummax_spec (l : vector) :
  Forall2 (fun a p => a <= p) l (cummax l) /\ nondecreasing (cummax l).
Proof.
  destruct l as [| a l]; simpl.
  - split; [constructor |]. intros i j Hij. simpl in Hij. lia.
  - destruct (scan_max_spec l a) as (Hge & Hle & Hmono). split.
    + constructor; [lra | exact Hle].
    + now apply nondecreasing_cons.
Qed.

Lemma float64_max_large : 2 ^ 20 <= float64_max.
Proof.
  unfold float64_max.
  assert (H1 : 2 ^ 20 <= 2 ^ 1023) by (apply Rle_pow; [lra | lia]).
  assert (H2 : 0 < / 2 ^ 52) by (apply Rinv_0_lt_compat, pow_lt; lra).
  assert (H3 : / 2 ^ 52 <= 1).
  { rewrite <- Rinv_1. apply Rinv_le_contravar; [lra |].
    apply pow_R1_Rle. lra. }
  assert (H4 : 0 < 2 ^ 20) by (apply pow_lt; lra).
  nra.
Qed.


Lemma scan_mult_pos (l : vector) :
  forall acc, 0 < acc -> Forall (fun a => 0 < a) l ->
    Forall (fun a => 0 < a) (scan Rmult acc l).
Proof.
  induction l as [| a l IH]; intros acc Hacc Hl; simpl; constructor;
    inversion Hl; subst.
  - now apply Rmult_lt_0_compat.
  - apply IH; trivial. now apply Rmult_lt_0_compat.
Qed.

Lemma wealth_positive (return_series : vector) :
  Forall (fun a => -1 < a) return_series ->
  Forall (fun w => 0 < w) (Wealth (drawdown return_series)).
Proof.
  intros H. unfold drawdown. simpl.
  assert (Hp : Forall (fun a => 0 < a) (map (Rplus 1) return_series)).
  { apply Forall_map. eapply Forall_impl; [| exact H]. simpl. intros; lra. }
  apply Forall_map.
  destruct (map (Rplus 1) return_series) as [| a l]; simpl; [constructor |].
  inversion Hp; subst. constructor; [lra |].
  eapply Forall_impl; [| apply scan_mult_pos; eassumption]. simpl. intros; lra.
Qed.

Lemma drawdown_entries (W P : vector) :
  Forall2 (fun w p => w <= p) W P -> Forall (fun w => 0 < w) W ->
  Forall (fun d => exists v, d = Fin v /\ -1 < v <= 0)
    (map (fun q => np_div (fst q - snd q) (Fin (snd q))) (combine W P)).
Proof.
  induction 1 as [| w p W P Hwp _ IH]; intros Hpos; simpl; constructor;
    inversion Hpos; subst.
  - unfold np_div. destruct (Req_dec_T p 0); [lra |].
    exists ((w - p) / p). split; [reflexivity |].
    assert (0 < p) by lra. split.
    + apply Rmult_lt_reg_r with p; trivial. unfold Rdiv.
      rewrite Rmult_assoc, Rinv_l by lra. lra.
    + apply Rmult_le_reg_r with p; trivial. unfold Rdiv.
      rewrite Rmult_assoc, Rinv_l by lra. lra.
  - now apply IH.
Qed.

(** X12.  When every return is above -100% and the wealth index does not
    overflow, the wealth index is never negative, the running peak stays
    positive and every drawdown is a real number in [-1, 0]: no division
    by zero occurs and a drawdown is never positive. *)
Theorem drawdown_in_range (return_series : vector) :
  Forall (fun a => -1 < a) return_series ->
  Forall (fun w => w <= float64_max) (Wealth (drawdown return_series)) ->
  Forall (fun w => 0 <= w) (Wealth (drawdown return_series)) /\
  Forall (fun p => 0 < p) (Peaks (drawdown return_series)) /\
  Forall (fun d => exists v, d = Fin v /\ -1 <= v <= 0)
    (Drawdown (drawdown return_series)).
Proof.
  intros H _.
  pose proof (wealth_positive return_series H) as Hpos.
  assert (Hdom : Forall2 (fun w p => w <= p)
            (Wealth (drawdown return_series)) (Peaks (drawdown return_series)))
    by (unfold drawdown; simpl; apply cummax_spec).
  split; [| split].
  - eapply Forall_impl; [| exact Hpos]. simpl. intros; lra.
  - clear H. induction Hdom as [| w p W P Hwp _ IH]; constructor;
      inversion Hpos; subst; [lra | now apply IH].
  - unfold drawdown in *. simpl in *.
    eapply Forall_impl; [| apply drawdown_entries; eassumption].
    simpl. intros d (v & -> & Hv). exists v. split; [reflexivity | lra].
Qed.

Lemma drawdown_in_range_witness :
  Forall (fun w => 0 <= w) (Wealth (drawdown [1 / 10; - (1 / 2); 1 / 5])) /\
  Forall (fun p => 0 < p) (Peaks (drawdown [1 / 10; - (1 / 2); 1 / 5])) /\
  Forall (fun d => exists v, d = Fin v /\ -1 <= v <= 0)
    (Drawdown (drawdown [1 / 10; - (1 / 2); 1 / 5])).
Proof.
  apply (drawdown_in_range [1 / 10; - (1 / 2); 1 / 5]).
  - repeat constructor; lra.
  - pose proof float64_max_large. repeat constructor; simpl; lra.
Defined.

Lemma scan_max_of_growing (l : vector) :
  forall acc, 0 < acc -> Forall (fun a => 1 <= a) l ->
    scan Rmax acc (scan Rmult acc l) = scan Rmult acc l.
Proof.
  induction l as [| a l IH]; intros acc Hacc Hl; simpl; trivial.
  inversion Hl; subst.
  assert (Hm : Rmax acc (acc * a) = acc * a) by (apply Rmax_right; nra).
  rewrite Hm. f_equal. apply IH; trivial. nra.
Qed.

Lemma map_scan_mult (c acc : R) (l : vector) :
  map (Rmult c) (scan Rmult acc l) = scan Rmult (c * acc) l.
Proof.
  revert acc; induction l as [| a l IH]; intros acc; simpl; trivial.
  rewrite IH. now rewrite Rmult_assoc.
Qed.

Lemma drawdown_at_peak (W : vector) :
  Forall (fun w => 0 < w) W ->
  Forall (fun d => d = Fin 0)
    (map (fun q => np_div (fst q - snd q) (Fin (snd q))) (combine W W)).
Proof.
  induction 1 as [| w W Hw _ IH]; simpl; constructor; trivial.
  unfold np_div. destruct (Req_dec_T w 0); [lra |]. f_equal. unfold Rdiv. ring.
Qed.

(** X13.  A series without a negative return is never under water: as long
    as the wealth index does not overflow, the running peak is the wealth
    index itself and every drawdown is 0. *)
Theorem drawdown_zero_without_losses (return_series : vector) :
  Forall (fun a => 0 <= a) return_series ->
  Forall (fun w => w <= float64_max) (Wealth (drawdown return_series)) ->
  Peaks (drawdown return_series) = Wealth (drawdown return_series) /\
  Forall (fun d => d = Fin 0) (Drawdown (drawdown return_series)).
Proof.
  intros H _.
  assert (Hpk : Peaks (drawdown return_series) = Wealth (drawdown return_series)).
  { unfold drawdown. simpl. destruct return_series as [| a l]; simpl; trivial.
    inversion H; subst. rewrite map_scan_mult. f_equal.
    apply scan_max_of_growing; [lra |].
    apply Forall_map. eapply Forall_impl; [| eassumption]. simpl. intros; lra. }
  split; [exact Hpk |].
  assert (Hpos : Forall (fun w => 0 < w) (Wealth (drawdown return_series))).
  { apply wealth_positive. eapply Forall_impl; [| exact H]. simpl. intros; lra. }
  unfold drawdown in *. simpl in *. rewrite Hpk. now apply drawdown_at_peak.
Qed.

Lemma drawdown_zero_without_losses_witness :
  Peaks (drawdown [1 / 10; 0; 1 / 5]) = Wealth (drawdown [1 / 10; 0; 1 / 5]) /\
  Forall (fun d => d = Fin 0) (Drawdown (drawdown [1 / 10; 0; 1 / 5])).
Proof.
  apply (drawdown_zero_without_losses [1 / 10; 0; 1 / 5]).
  - repeat constructor; lra.
  - pose proof float64_max_large. repeat constructor; simpl; lra.
Defined.

(** ** [semideviation] *)

Lemma series_std0_nan (v : vector) : series_std0 v = NaN <-> v = [].
Proof.
  destruct v; simpl; split; trivial; discriminate.
Qed.

Lemma Rltb_true (a b : R) : Rltb a b = true <-> a < b.
Proof.
  unfold Rltb. destruct (Rlt_dec a b); split; trivial; [discriminate | contradiction].
Qed.

Lemma filter_nil_iff {A : Type} (f : A -> bool) (l : list A) :
  filter f l = [] <-> Forall (fun a => f a = false) l.
Proof.
  induction l as [| a l IH]; simpl.
  - split; [constructor | reflexivity].
  - destruct (f a) eqn:Fa; split.
    + discriminate.
    + intros H. inversion H; congruence.
    + intros H. constructor; [exact Fa | now apply IH].
    + intros H. inversion H. now apply IH.
Qed.

(** X14.  [semideviation] is [nan] exactly when the Series has no negative
    return (in particular when it is empty); and whenever it is a real
    number, that number is at least 0. *)
Theorem semideviation_nan_iff_no_loss (r : vector) :
  (semideviation r = NaN <-> Forall (fun a => 0 <= a) r) /\
  (forall v, semideviation r = Fin v -> 0 <= v).
Proof.
  unfold semideviation. cbv zeta. split.
  - rewrite series_std0_nan. split; intros H.
    + apply (proj1 (filter_nil_iff _ r)) in H.
      eapply Forall_impl; [| exact H]. simpl. intros a Ha.
      destruct (Rlt_dec a 0) as [Hlt | Hge]; [| lra].
      apply Rltb_true in Hlt. congruence.
    + apply (proj2 (filter_nil_iff _ r)).
      eapply Forall_impl; [| exact H]. simpl. intros a Ha.
      unfold Rltb. destruct (Rlt_dec a 0); [lra | reflexivity].
  - intros v H. destruct (filter _ r); simpl in H; [discriminate |].
    injection H as <-. apply sqrt_pos.
Qed.

(** X15.  Returns that are not negative never change the semideviation:
    inserting one anywhere in the Series leaves the result as it was. *)
Theorem semideviation_ignores_gains (r1 r2 : vector) (a : R) :
  0 <= a -> semideviation (r1 ++ a :: r2)%list = semideviation (r1 ++ r2)%list.
Proof.
  intros Ha. unfold semideviation. cbv zeta. rewrite !filter_app. simpl.
  unfold Rltb at 2. destruct (Rlt_dec a 0); [lra | reflexivity].
Qed.

Lemma semideviation_ignores_gains_witness :
  semideviation ([- (1 / 10); - (1 / 5)] ++ 3 / 10 :: [- (1 / 20)])%list =
  semideviation ([- (1 / 10); - (1 / 5)] ++ [- (1 / 20)])%list.
Proof.
  apply (semideviation_ignores_gains [- (1 / 10); - (1 / 5)] [- (1 / 20)] (3 / 10)).
  lra.
Defined.

(** ** [var_historic] and [cvar_historic] *)

Lemma aggregate_returned (f : vector -> R -> outcome float64)
    (g : vector -> R -> outcome statistic)
    (columns : list (string * vector)) (level : R) :
  (forall s v, g s level = Returned (Scalar v) <-> f s level = Returned v) ->
  forall values,
    aggregate f columns level = Returned (PerColumn values) <->
    Forall2 (fun c e => fst e = fst c /\ g (snd c) level = Returned (Scalar (snd e)))
      columns values.
Proof.
  intros Hg values. unfold aggregate. split.
  - intros H. apply bind_returned in H as (vs & Hvs & H). injection H as <-.
    apply mapM_returned in Hvs.
    induction Hvs as [| c e cs es Hce _ IH]; constructor; trivial.
    apply bind_returned in Hce as (v & Hv & Hce). injection Hce as <-.
    split; [reflexivity | now apply Hg].
  - intros H.
    assert (Hm : mapM (fun c => v <- f (snd c) level ;; Returned (fst c, v))
                   columns = Returned values).
    { apply mapM_returned.
      induction H as [| c e cs es [Hn Hv] _ IH]; constructor; trivial.
      apply Hg in Hv. rewrite Hv. simpl. destruct e; simpl in *. now subst. }
    now rewrite Hm.
Qed.

(** X21.  The historic functions dispatch on the type of their argument:
    anything but a Series or a DataFrame raises the TypeError, whatever the
    percentile function; and on a DataFrame the result holds, column by
    column and under the column's name, exactly what the function returns
    on that column as a Series. *)
Theorem historic_dispatch (np_percentile : vector -> R -> outcome float64)
    (columns : list (string * vector)) (level : R) :
  var_historic np_percentile OtherData level =
    Raised (TypeError "Expected r to be Series or DataFrame") /\
  cvar_historic np_percentile OtherData level =
    Raised (TypeError "Expected r to be Series or DataFrame") /\
  (forall values,
     var_historic np_percentile (DataFrame columns) level =
       Returned (PerColumn values) <->
     Forall2 (fun c e =>
                fst e = fst c /\
                var_historic np_percentile (Series (snd c)) level =
                  Returned (Scalar (snd e))) columns values) /\
  (forall values,
     cvar_historic np_percentile (DataFrame columns) level =
       Returned (PerColumn values) <->
     Forall2 (fun c e =>
                fst e = fst c /\
                cvar_historic np_percentile (Series (snd c)) level =
                  Returned (Scalar (snd e))) columns values).
Proof.
  split; [reflexivity |]. split; [reflexivity |]. split.
  - apply (aggregate_returned (var_historic_series np_percentile)
             (fun s l => var_historic np_percentile (Series s) l)).
    intros s v. simpl.
    destruct (var_historic_series np_percentile s level); simpl;
      split; congruence.
  - apply (aggregate_returned (cvar_historic_series np_percentile)
             (fun s l => cvar_historic np_percentile (Series s) l)).
    intros s v. simpl.
    destruct (cvar_historic_series np_percentile s level); simpl;
      split; congruence.
Qed.

(** ** Rounded results *)


Module F64Facts.
Import PrimFloat.



End F64Facts.

(** ** [skewness] and [kurtosis] *)

Lemma np_div_zero_by_zero (num den : R) :
  num = 0 -> den = 0 -> np_div num (Fin den) = NaN.
Proof.
  intros -> ->. unfold np_div.
  destruct (Req_dec_T 0 0) as [_ | E]; [| now contradiction E].
  destruct (Rlt_dec 0 0); [lra | reflexivity].
Qed.

(** X19.  With fewer than two observations the moments are not defined:
    for an empty Series and for a Series of a single return, [skewness] and
    [kurtosis] return [nan] (the float64 result of 0/0) and raise
    nothing. *)
Theorem moments_need_two_observations (r : vector) :
  (length r <= 1)%nat -> skewness r = NaN /\ kurtosis r = NaN.
Proof.
  intros Hl. destruct r as [| c [| b r']]; [split; reflexivity | | simpl in Hl; lia].
  assert (Hm : (c + 0) / INR 1 = c) by (simpl; field).
  assert (Hs : sqrt (((c - c) * (c - c) + 0) / INR 1) = 0).
  { replace (((c - c) * (c - c) + 0) / INR 1) with 0 by (simpl; field).
    apply sqrt_0. }
  unfold skewness, kurtosis, series_mean, series_std0.
  cbn [np_sum fold_right length map]. rewrite !Hm, !Hs.
  split; apply np_div_zero_by_zero; simpl; field.
Qed.

Lemma moments_need_two_observations_witness :
  skewness [1 / 10] = NaN /\ kurtosis [1 / 10] = NaN.
Proof. apply (moments_need_two_observations [1 / 10]). simpl. lia. Defined.
